(** * BTC/USDT historical importer: a shallow embedding of
      [Workspace/btc_data_importer.py] and the properties of its resumption
      cursor, its fetch / convert / insert cycle and its progress estimator.

    Conventions of the embedding.
    - A timestamp is an integer number of milliseconds since the Unix epoch
      ([Z]).  The store holds zoneless [datetime]s: a stored open or close time
      is the wall-clock reading that was written, counted in milliseconds as if
      it were a reading in UTC.  [datetime.fromtimestamp(ms / 1000, utc)]
      writes the UTC reading of the instant [ms], so it keeps the number;
      [int(dt.timestamp() * 1000)] of a value read back from the store takes
      the reading as one of the host's local time and so subtracts the host's
      offset from UTC ([local_offset], part of the environment).
    - A Python [float] is idealised as a rational ([Q]), and the time fields of
      an upstream record are integers inside the range of [datetime].
    - [calculate_progress_stats] and [conn.rollback()] are taken to return: the
      date arithmetic of the estimated time of arrival, which overflows when the
      covered fraction is positive and very small, and a rollback that itself
      raises are outside the model, as is the banner that is printed before
      the first query.
    - What the importer prints, and every call it makes to the database or to
      the HTTP API, is recorded in order in a list of [event]s.
    - The behaviour of the two remote services is an explicit [env]: whether a
      database call raises, and what each HTTP request answers.
    - [KeyboardInterrupt] is asynchronous and is not part of the model. *)

From Stdlib Require Import ZArith QArith List String Bool Lia.
Import ListNotations.

Open Scope Z_scope.

(** ** Python results *)

Inductive exn : Type :=
| IndexError
| TypeError
| ValueError
| DatabaseError.

Inductive result (A : Type) : Type :=
| Ok (a : A)
| Raise (e : exn).

Arguments Ok {A} a.
Arguments Raise {A} e.

Definition bind {A B : Type} (r : result A) (k : A -> result B) : result B :=
  match r with
  | Ok a => k a
  | Raise e => Raise e
  end.

Notation "x <- r ;; k" := (bind r (fun x => k))
  (at level 61, r at next level, right associativity).

(** [[f(x) for x in l]], stopping at the first exception. *)
Fixpoint map_result {A B : Type} (f : A -> result B) (l : list A)
  : result (list B) :=
  match l with
  | [] => Ok []
  | x :: l' => y <- f x ;; ys <- map_result f l' ;; Ok (y :: ys)
  end.

(** ** Data *)

(** A JSON value of a raw upstream record.  A string is represented by what
    [float()] makes of it: [JNumStr q] is a string in float syntax that denotes
    [q], [JBadStr s] is a string that [float()] rejects. *)
Inductive jvalue : Type :=
| JInt (z : Z)
| JNumStr (q : Q)
| JBadStr (s : string)
| JNull.

(** Binance kline: [[open_time, open, high, low, close, volume, close_time, ...]] *)
Definition kline : Type := list jvalue.

(** One row of the [MarketData] table, in the column order of the INSERT. *)
Record db_row : Type := mk_row {
  Symbol : string;
  TimeFrame : string;
  OpenTime : Z;
  OpenPrice : Q;
  HighPrice : Q;
  LowPrice : Q;
  ClosePrice : Q;
  Volume : Q;
  CloseTime : Z
}.

(** Query parameters of one request to the klines endpoint. *)
Record params : Type := mk_params {
  p_symbol : string;
  p_interval : string;
  p_startTime : Z;
  p_limit : Z;
  p_endTime : option Z
}.

Inductive event : Type :=
| MsgLatestInDb (latest_time : Z)
| MsgNoExistingData
| MsgLatestError
| CallGet (p : params)
| MsgApiError
| CallExecutemany (data_batch : list db_row)
| MsgInsertError
| MsgAlreadyUpToDate
| MsgScope (total_minutes estimated_batches : Z)
| MsgNoMoreData
| MsgProgressReport (current_timestamp start_timestamp end_timestamp : Z)
                    (batch_count total_records : nat)
| MsgQuickUpdate (start_time : Z) (batch_count total_records : nat)
| Sleep
| MsgCheckpoint (start_time : Z) (total_records : nat)
| MsgImportError (total_records : nat)
| MsgImportDone (total_records batch_count : nat).

(** ** The environment *)

(** What a database call does: it goes through, the statement raises inside the
    [try], or [get_database_connection] raises before the [try] is entered. *)
Inductive db_outcome : Type :=
| DbOk
| DbRaises
| DbConnectFails.

(** What [requests.get(...)], [raise_for_status()] and [response.json()] do:
    they deliver the decoded page, or raise a [requests.RequestException]
    (connection error, timeout, non-2xx status, body that is not JSON). *)
Inductive http_outcome : Type :=
| HttpOk (page : list kline)
| HttpRaises.

(** [insert_outcome n] and [api n] are the behaviours met by batch number [n]
    of the session.  [local_offset t] is the offset from UTC, in milliseconds
    and positive east of Greenwich, that the host's time zone gives to the
    local wall-clock reading [t]. *)
Record env : Type := mk_env {
  select_outcome : db_outcome;
  insert_outcome : nat -> db_outcome;
  api : nat -> params -> http_outcome;
  local_offset : Z -> Z
}.

(** ** [BTCDataImporter.__init__] *)

Definition symbol : string := "BTCUSDT".
Definition interval : string := "1m".
Definition limit : Z := 1000.

(** Days from 1970-01-01 to the civil date [y]-[m]-[d] (proleptic Gregorian),
    which is what [datetime(y, m, d, tzinfo=timezone.utc).timestamp()] counts
    in units of 86400 seconds. *)
Definition days_from_civil (y m d : Z) : Z :=
  let y' := if m <=? 2 then y - 1 else y in
  let era := y' / 400 in
  let yoe := y' - era * 400 in
  let mp := if 2 <? m then m - 3 else m + 9 in
  let doy := (153 * mp + 2) / 5 + d - 1 in
  let doe := yoe * 365 + yoe / 4 - yoe / 100 + doy in
  era * 146097 + doe - 719468.

(** [int(datetime(2017, 8, 17, tzinfo=timezone.utc).timestamp() * 1000)] *)
Definition start_timestamp : Z := days_from_civil 2017 8 17 * 86400 * 1000.

(** ** [get_latest_timestamp] *)

Definition key_match (r : db_row) : bool :=
  (Symbol r =? "BTC")%string && (TimeFrame r =? "1m")%string.

Definition sql_max (acc : option Z) (t : Z) : option Z :=
  match acc with
  | None => Some t
  | Some m => Some (Z.max m t)
  end.

(** [SELECT MAX(OpenTime) FROM MarketData WHERE Symbol = 'BTC' AND TimeFrame = '1m'];
    [None] is the NULL of an empty selection. *)
Definition select_max_open_time (table : list db_row) : option Z :=
  fold_left sql_max (map OpenTime (filter key_match table)) None.

(** [int(latest_time.timestamp() * 1000)] of the zoneless [latest_time] that
    the driver returns: the reading is taken as local time. *)
Definition timestamp_ms (off : Z -> Z) (latest_time : Z) : Z :=
  latest_time - off latest_time.

Definition get_latest_timestamp (o : db_outcome) (off : Z -> Z)
  (table : list db_row) : list event * result Z :=
  match o with
  | DbConnectFails => ([], Raise DatabaseError)
  | DbRaises => ([MsgLatestError], Ok start_timestamp)
  | DbOk =>
      match select_max_open_time table with
      | Some latest_time =>
          ([MsgLatestInDb latest_time], Ok (timestamp_ms off latest_time + 60000))
      | None => ([MsgNoExistingData], Ok start_timestamp)
      end
  end.

(** ** [fetch_klines] *)

Definition request (start_time : Z) (end_time : option Z) : params :=
  {| p_symbol := symbol;
     p_interval := interval;
     p_startTime := start_time;
     p_limit := limit;
     p_endTime := match end_time with
                  | Some 0 => None
                  | other => other
                  end |}.

Definition fetch_klines (h : params -> http_outcome) (start_time : Z)
  (end_time : option Z) : list event * list kline :=
  let p := request start_time end_time in
  match h p with
  | HttpOk page => ([CallGet p], page)
  | HttpRaises => ([CallGet p; MsgApiError], [])
  end.

(** ** [convert_kline_to_db_format] *)

Definition py_index (k : kline) (i : nat) : result jvalue :=
  match nth_error k i with
  | Some v => Ok v
  | None => Raise IndexError
  end.

(** [datetime.fromtimestamp(v / 1000, tz=timezone.utc)] *)
Definition fromtimestamp_ms (v : jvalue) : result Z :=
  match v with
  | JInt z => Ok z
  | _ => Raise TypeError
  end.

(** [float(v)] *)
Definition py_float (v : jvalue) : result Q :=
  match v with
  | JInt z => Ok (inject_Z z)
  | JNumStr q => Ok q
  | JBadStr _ => Raise ValueError
  | JNull => Raise TypeError
  end.

Definition convert_kline_to_db_format (k : kline) : result db_row :=
  k0 <- py_index k 0 ;;
  open_time <- fromtimestamp_ms k0 ;;
  k6 <- py_index k 6 ;;
  close_time <- fromtimestamp_ms k6 ;;
  k1 <- py_index k 1 ;; open_price <- py_float k1 ;;
  k2 <- py_index k 2 ;; high_price <- py_float k2 ;;
  k3 <- py_index k 3 ;; low_price <- py_float k3 ;;
  k4 <- py_index k 4 ;; close_price <- py_float k4 ;;
  k5 <- py_index k 5 ;; volume <- py_float k5 ;;
  Ok (mk_row "BTC" "1m" open_time open_price high_price low_price close_price
        volume close_time).

(** ** [bulk_insert_data] *)

(** Returns the events, the table after the call and the returned count. *)
Definition bulk_insert_data (o : db_outcome) (table : list db_row)
  (data_batch : list db_row) : list event * list db_row * result nat :=
  match data_batch with
  | [] => ([], table, Ok 0%nat)
  | _ =>
      match o with
      | DbConnectFails => ([], table, Raise DatabaseError)
      | DbRaises => ([CallExecutemany data_batch; MsgInsertError], table, Ok 0%nat)
      | DbOk => ([CallExecutemany data_batch], table ++ data_batch,
                 Ok (List.length data_batch))
      end
  end.

(** ** [calculate_progress_stats] *)

Definition Qltb (x y : Q) : bool := negb (Qle_bool y x).

(** [(completed_time_span / total_time_span * 100) if total_time_span > 0 else 100] *)
Definition progress_percent (current_timestamp start_ts end_timestamp : Z) : Q :=
  let total_time_span := end_timestamp - start_ts in
  let completed_time_span := current_timestamp - start_ts in
  if 0 <? total_time_span
  then (inject_Z completed_time_span / inject_Z total_time_span * 100)%Q
  else 100%Q.

(** The fraction of the time span that is covered: the percentage over 100. *)
Definition coverage (current_timestamp start_ts end_timestamp : Z) : Q :=
  (progress_percent current_timestamp start_ts end_timestamp / 100)%Q.

(** [remaining_seconds], defined in the branch [progress_percent > 0] only;
    [None] is the branch [eta = None], printed as an ETA still being computed. *)
Definition remaining_seconds (progress elapsed_seconds : Q) : option Q :=
  if Qltb 0 progress
  then
    let estimated_total_seconds := (elapsed_seconds / (progress / 100))%Q in
    Some (estimated_total_seconds - elapsed_seconds)%Q
  else None.

(** [eta = datetime.now() + timedelta(seconds=remaining_seconds)], in seconds. *)
Definition eta (now progress elapsed_seconds : Q) : option Q :=
  match remaining_seconds progress elapsed_seconds with
  | Some r => Some (now + r)%Q
  | None => None
  end.

(** ** [import_historical_data] *)

Record session : Type := mk_session {
  start_time : Z;
  total_records : nat;
  batch_count : nat;
  table : list db_row;
  out : list event
}.

Inductive control : Type :=
| Continue
| Break
| Raised (e : exn).

(** [klines[-1][0] + 1] *)
Definition py_add1 (v : jvalue) : result Z :=
  match v with
  | JInt z => Ok (z + 1)
  | _ => Raise TypeError
  end.

Definition next_start_time (klines : list kline) : result Z :=
  k0 <- py_index (last klines []) 0 ;; py_add1 k0.

(** The report shown for the first five batches and every twentieth one, or
    else the one-line update of every fifth batch. *)
Definition report (bc : nat) (cursor original_start_time current_time : Z)
  (total : nat) : list event :=
  if (bc <=? 5)%nat || (bc mod 20 =? 0)%nat
  then [MsgProgressReport cursor original_start_time current_time bc total]
  else if (bc mod 5 =? 0)%nat
       then [MsgQuickUpdate cursor bc total]
       else [].

Definition checkpoint (bc : nat) (cursor : Z) (total : nat) : list event :=
  if (bc mod 100 =? 0)%nat then [MsgCheckpoint cursor total] else [].

(** One pass through the body of [while start_time < current_time]. *)
Definition loop_body (e : env) (current_time original_start_time : Z)
  (s : session) : control * session :=
  let bc := S (batch_count s) in
  let '(ev_fetch, klines) := fetch_klines (api e bc) (start_time s) None in
  match klines with
  | [] =>
      (Break,
       mk_session (start_time s) (total_records s) bc (table s)
         (out s ++ ev_fetch ++ [MsgNoMoreData]))
  | _ :: _ =>
      (* the later test [if klines:] holds throughout this branch *)
      match map_result convert_kline_to_db_format klines with
      | Raise ex =>
          (Raised ex,
           mk_session (start_time s) (total_records s) bc (table s)
             (out s ++ ev_fetch))
      | Ok db_data =>
          match bulk_insert_data (insert_outcome e bc) (table s) db_data with
          | (ev_insert, table', Raise ex) =>
              (Raised ex,
               mk_session (start_time s) (total_records s) bc table'
                 (out s ++ ev_fetch ++ ev_insert))
          | (ev_insert, table', Ok inserted) =>
              let total := (total_records s + inserted)%nat in
              match next_start_time klines with
              | Raise ex =>
                  (Raised ex,
                   mk_session (start_time s) total bc table'
                     (out s ++ ev_fetch ++ ev_insert))
              | Ok cursor =>
                  (Continue,
                   mk_session cursor total bc table'
                     (out s ++ ev_fetch ++ ev_insert
                        ++ report bc cursor original_start_time current_time total
                        ++ [Sleep]
                        ++ checkpoint bc cursor total))
              end
          end
      end
  end.

Inductive loop_exit : Type :=
| CondFalse
| Broke
| Threw (e : exn).

(** [while start_time < current_time: ...]; [None] when [fuel] passes do not
    reach the end of the loop. *)
Fixpoint while_loop (fuel : nat) (e : env) (current_time original_start_time : Z)
  (s : session) : option (loop_exit * session) :=
  if start_time s <? current_time
  then
    match fuel with
    | O => None
    | S fuel' =>
        match loop_body e current_time original_start_time s with
        | (Continue, s') => while_loop fuel' e current_time original_start_time s'
        | (Break, s') => Some (Broke, s')
        | (Raised ex, s') => Some (Threw ex, s')
        end
    end
  else Some (CondFalse, s).

(** How [import_historical_data] returns: at the early [return] of an
    up-to-date store, after the final statistics, or from the handler of
    [except Exception]. *)
Inductive outcome : Type :=
| UpToDate
| Completed
| Failed (e : exn).

Inductive run_result : Type :=
| Propagates (e : exn) (printed : list event)
| Returns (o : outcome) (s : session).

Definition scope (start current_time : Z) : event :=
  let total_minutes := Z.quot (current_time - start) 60000 in
  let estimated_batches := (total_minutes + limit - 1) / limit in
  MsgScope total_minutes estimated_batches.

Definition import_historical_data (fuel : nat) (e : env) (table0 : list db_row)
  (current_time : Z) : option run_result :=
  match get_latest_timestamp (select_outcome e) (local_offset e) table0 with
  | (ev, Raise ex) => Some (Propagates ex ev)
  | (ev, Ok start) =>
      if current_time <=? start
      then Some (Returns UpToDate
                   (mk_session start 0 0 table0 (ev ++ [MsgAlreadyUpToDate])))
      else
        let s0 := mk_session start 0 0 table0 (ev ++ [scope start current_time]) in
        match while_loop fuel e current_time start s0 with
        | None => None
        | Some (Threw ex, s) =>
            Some (Returns (Failed ex)
                    (mk_session (start_time s) (total_records s) (batch_count s)
                       (table s) (out s ++ [MsgImportError (total_records s)])))
        | Some (_, s) =>
            Some (Returns Completed
                    (mk_session (start_time s) (total_records s) (batch_count s)
                       (table s)
                       (out s ++ [MsgImportDone (total_records s) (batch_count s)])))
        end
  end.

(** ** Specification-side notions *)

(** [m] is the greatest [OpenTime] among the rows of the key ('BTC', '1m'). *)
Definition stored_max (tbl : list db_row) (m : Z) : Prop :=
  (exists r, In r tbl /\ key_match r = true /\ OpenTime r = m) /\
  (forall r, In r tbl -> key_match r = true -> OpenTime r <= m).

Definition no_rows_for_key (tbl : list db_row) : Prop :=
  forall r, In r tbl -> key_match r = false.

(** The first HTTP request recorded in a list of events. *)
Fixpoint first_request (evs : list event) : option params :=
  match evs with
  | [] => None
  | CallGet p :: _ => Some p
  | _ :: evs' => first_request evs'
  end.

(** One minute, the interval of the candles, in milliseconds. *)
Definition one_interval : Z := 60000.

(** The page that the cycle entered in session state [s] receives, and the
    events of that fetch. *)
Definition page_of (e : env) (s : session) : list kline :=
  snd (fetch_klines (api e (S (batch_count s))) (start_time s) None).

Definition fetch_events (e : env) (s : session) : list event :=
  fst (fetch_klines (api e (S (batch_count s))) (start_time s) None).

(** The session state in which the loop is entered. *)
Definition entry_session (ev : list event) (start : Z) (table0 : list db_row)
  (current_time : Z) : session :=
  mk_session start 0 0 table0 (ev ++ [scope start current_time]).

(** ** Sample data *)

(** A well-formed raw record opening at [t], and the row it translates to. *)
Definition candle (t : Z) : kline :=
  [JInt t; JNumStr 1; JNumStr 2; JNumStr 1; JNumStr 2; JNumStr 5; JInt (t + 59999)].

Definition candle_row (t : Z) : db_row :=
  mk_row "BTC" "1m" t 1 2 1 2 5 (t + 59999).

(** An upstream that holds the candles opening at the times [ts] (ascending)
    and answers a request with the first [limit] of those at or after
    [startTime]. *)
Definition feed_of (ts : list Z) (p : params) : http_outcome :=
  HttpOk (firstn (Z.to_nat (p_limit p))
            (map candle (filter (fun t => p_startTime p <=? t) ts))).

Definition healthy_env (ts : list Z) : env :=
  mk_env DbOk (fun _ => DbOk) (fun _ => feed_of ts) (fun _ => 0).

(** The same upstream behind a database whose INSERT raises. *)
Definition failing_insert_env (ts : list Z) : env :=
  mk_env DbOk (fun _ => DbRaises) (fun _ => feed_of ts) (fun _ => 0).

(** A database whose SELECT raises. *)
Definition failing_select_env (ts : list Z) : env :=
  mk_env DbRaises (fun _ => DbOk) (fun _ => feed_of ts) (fun _ => 0).

(** An API whose requests all fail. *)
Definition failing_api_env : env :=
  mk_env DbOk (fun _ => DbOk) (fun _ _ => HttpRaises) (fun _ => 0).

(** A raw record that lacks fields, one whose price is not a number, and an
    upstream that serves them after a well-formed record. *)
Definition short_record (t : Z) : kline := [JInt t; JNumStr 1].

Definition bad_price_record (t : Z) : kline :=
  [JInt t; JBadStr "n/a"; JNumStr 2; JNumStr 1; JNumStr 2; JNumStr 5; JInt (t + 59999)].

Definition malformed_page_env (bad : kline) : env :=
  mk_env DbOk (fun _ => DbOk)
    (fun _ p => HttpOk [candle (p_startTime p); bad]) (fun _ => 0).

(** The two kinds of malformed record: fields are missing, or a price or the
    volume is a string that is not a number. *)
Definition missing_fields (k : kline) : Prop := (List.length k < 7)%nat.

Definition non_numeric_field (k : kline) : Prop :=
  exists i s, (1 <= i <= 5)%nat /\ nth_error k i = Some (JBadStr s).

(** The coverage as the specification words it: the covered fraction clamped
    to the unit interval, and 1 when the time span is zero. *)
Definition clamp (q lo hi : Q) : Q :=
  if Qltb q lo then lo else if Qltb hi q then hi else q.

Definition clamped_coverage (current_timestamp start_ts end_timestamp : Z) : Q :=
  if end_timestamp - start_ts =? 0
  then 1%Q
  else clamp (inject_Z (current_timestamp - start_ts)
              / inject_Z (end_timestamp - start_ts))%Q 0%Q 1%Q.

(** The cursor a session starts from when the SELECT goes through, on a host
    whose local time is offset from UTC by [off]. *)
Definition next_cursor (off : Z -> Z) (tbl : list db_row) : Z :=
  match select_max_open_time tbl with
  | Some latest_time => timestamp_ms off latest_time + 60000
  | None => start_timestamp
  end.

(** The host's local time is UTC or west of it. *)
Definition host_not_east_of_utc (e : env) : Prop :=
  forall t, local_offset e t <= 0.

(** The upstream of [healthy_env] behind a working database, on a host whose
    local time is [offset] milliseconds east of UTC. *)
Definition offset_env (offset : Z) (ts : list Z) : env :=
  mk_env DbOk (fun _ => DbOk) (fun _ => feed_of ts) (fun _ => offset).

(** The upstream answers every request starting at [s] with the page [feed s],
    whatever the batch: no data arrives, and no request fails. *)
Definition serves (e : env) (feed : Z -> list kline) : Prop :=
  forall n s, api e n (request s None) = HttpOk (feed s).

Definition database_works (e : env) : Prop :=
  select_outcome e = DbOk /\ forall n, insert_outcome e n = DbOk.

(** Every record served for a start time translates, opens at or after that
    start time and opened before the instant [now]. *)
Definition upstream_before (feed : Z -> list kline) (now : Z) : Prop :=
  forall s k, In k (feed s) ->
    exists r, convert_kline_to_db_format k = Ok r /\ s <= OpenTime r < now.

(** An empty page means that nothing exists at or after the start time. *)
Definition exhaustion_is_final (feed : Z -> list kline) : Prop :=
  forall s s', s <= s' -> feed s = [] -> feed s' = [].

(** The pages of [feed_of ts]. *)
Definition pages_of (ts : list Z) (s : Z) : list kline :=
  firstn (Z.to_nat limit) (map candle (filter (fun t => s <=? t) ts)).

(** ** Notions for the properties of the whole session *)

(** The number of HTTP requests recorded in a list of events. *)
Fixpoint count_requests (evs : list event) : nat :=
  match evs with
  | [] => 0%nat
  | CallGet _ :: evs' => S (count_requests evs')
  | _ :: evs' => count_requests evs'
  end.

(** Scans the events with a flag telling whether a request may be made: a
    request clears the flag, [time.sleep] raises it again.  [None] when a
    request is made while the flag is down. *)
Fixpoint pace (ready : bool) (evs : list event) : option bool :=
  match evs with
  | [] => Some ready
  | CallGet _ :: evs' => if ready then pace false evs' else None
  | Sleep :: evs' => pace true evs'
  | _ :: evs' => pace ready evs'
  end.

(** No two requests without a sleep between them. *)
Definition throttled (evs : list event) : bool :=
  match pace true evs with
  | Some _ => true
  | None => false
  end.

(** [l] is strictly increasing and starts at or after [c]. *)
Fixpoint ascending_from (c : Z) (l : list Z) : Prop :=
  match l with
  | [] => True
  | t :: l' => c <= t /\ ascending_from (t + 1) l'
  end.

(** The open times that the table holds for the key ('BTC', '1m'). *)
Definition key_open_times (tbl : list db_row) : list Z :=
  map OpenTime (filter key_match tbl).

(** Every page that the upstream delivers is, once translated, strictly
    increasing in open time and starts at or after the requested start. *)
Definition pages_ascending (e : env) : Prop :=
  forall n c page db_data,
    api e n (request c None) = HttpOk page ->
    map_result convert_kline_to_db_format page = Ok db_data ->
    ascending_from c (map OpenTime db_data).

(** The last open time of every page that translates is at or after the
    requested start: the cursor moves forward with every page. *)
Definition feed_moves_on (e : env) : Prop :=
  forall n c page db_data,
    api e n (request c None) = HttpOk page ->
    page <> [] ->
    map_result convert_kline_to_db_format page = Ok db_data ->
    c <= OpenTime (last db_data (candle_row 0)).

(** An upstream that holds the candles opening at [ts] and delivers pages of
    at most [size] records, behind a database whose inserts behave as [ins]
    says. *)
Definition small_page_env (size : nat) (ins : nat -> db_outcome) (ts : list Z)
  : env :=
  mk_env DbOk ins
    (fun _ p =>
       HttpOk (firstn size (map candle (filter (fun t => p_startTime p <=? t) ts))))
    (fun _ => 0).

(** ** The progress bar of [calculate_progress_stats] *)

(** [int(q)]: truncation toward zero. *)
Definition py_int (q : Q) : Z := Z.quot (Qnum q) (Zpos (Qden q)).

Definition bar_length : Z := 30.

(** [int(bar_length * progress_percent / 100)] *)
Definition filled_length (progress : Q) : Z :=
  py_int (inject_Z bar_length * progress / 100).

(** ['█' * filled_length + '░' * (bar_length - filled_length)]; a cell is
    [true] when filled.  A string repeated a negative number of times is
    empty. *)
Definition bar (progress : Q) : list bool :=
  repeat true (Z.to_nat (filled_length progress))
    ++ repeat false (Z.to_nat (bar_length - filled_length progress)).

(** ** [MarketDataImporter.import_from_csv] of [fast_import_market_data.py]

    The loop over the rows of the backup file, its final flush and the
    handler [except Exception].  A datetime is a number of seconds; the two
    parsers of the standard library are parameters: [strptime s] is
    [datetime.strptime(s, "%Y-%m-%d %H:%M:%S")] and [to_float s] is [float(s)],
    [None] standing for the [ValueError] of a string they reject.  The header
    of the file is taken to name the ten columns.  The table is the table as
    the loop finds it, after [clear_existing_data]; the progress line printed
    after a full batch is left out (its divisor, the number of lines of the
    file less one, is at least the number of rows read). *)

(** A field of a row of [csv.DictReader]: [None] when the line is too short. *)
Definition csv_field : Type := option string.

Record csv_row : Type := mk_csv_row {
  c_Symbol : csv_field;
  c_TimeFrame : csv_field;
  c_OpenTime : csv_field;
  c_OpenPrice : csv_field;
  c_HighPrice : csv_field;
  c_LowPrice : csv_field;
  c_ClosePrice : csv_field;
  c_Volume : csv_field;
  c_CloseTime : csv_field;
  c_CreatedAt : csv_field
}.

(** The tuple appended to [batch_data]. *)
Record backup_row : Type := mk_backup_row {
  b_Symbol : option string;
  b_TimeFrame : option string;
  b_OpenTime : Z;
  b_OpenPrice : Q;
  b_HighPrice : Q;
  b_LowPrice : Q;
  b_ClosePrice : Q;
  b_Volume : Q;
  b_CloseTime : option Z;
  b_CreatedAt : option Z
}.

(** What the database does with the statements of the import:
    [executemany_raises n] tells whether the bulk insert issued when [n] rows
    have been imported raises, [count_raises] whether the final
    [SELECT COUNT] does. *)
Record csv_db : Type := mk_csv_db {
  executemany_raises : nat -> bool;
  count_raises : bool
}.

Record csv_state : Type := mk_csv_state {
  committed : list backup_row;
  pending : list backup_row;
  rows_imported : nat;
  skipped : nat;
  batches : list (list backup_row)
}.

Definition batch_size : nat := 1000.

Section CsvImport.

Variable strptime : string -> option Z.
Variable to_float : string -> option Q.

(** [datetime.strptime(row[...], ...)] *)
Definition csv_time (f : csv_field) : result Z :=
  match f with
  | None => Raise TypeError
  | Some s =>
      match strptime s with
      | Some t => Ok t
      | None => Raise ValueError
      end
  end.

(** [datetime.strptime(row[...], ...) if row[...] else None] *)
Definition csv_optional_time (f : csv_field) : result (option Z) :=
  match f with
  | None => Ok None
  | Some EmptyString => Ok None
  | Some s =>
      match strptime s with
      | Some t => Ok (Some t)
      | None => Raise ValueError
      end
  end.

(** [float(row[...])] *)
Definition csv_float (f : csv_field) : result Q :=
  match f with
  | None => Raise TypeError
  | Some s =>
      match to_float s with
      | Some q => Ok q
      | None => Raise ValueError
      end
  end.

(** The body of the inner [try], up to the tuple. *)
Definition convert_csv_row (row : csv_row) : result backup_row :=
  open_time <- csv_time (c_OpenTime row) ;;
  close_time <- csv_optional_time (c_CloseTime row) ;;
  created_at <- csv_optional_time (c_CreatedAt row) ;;
  open_price <- csv_float (c_OpenPrice row) ;;
  high_price <- csv_float (c_HighPrice row) ;;
  low_price <- csv_float (c_LowPrice row) ;;
  close_price <- csv_float (c_ClosePrice row) ;;
  volume <- csv_float (c_Volume row) ;;
  Ok (mk_backup_row (c_Symbol row) (c_TimeFrame row) open_time open_price
        high_price low_price close_price volume close_time created_at).

(** [for row in reader: ...]: the state after the last row, or the state in
    which an exception other than [ValueError] left the loop. *)
Fixpoint csv_rows (db : csv_db) (rows : list csv_row) (st : csv_state)
  : csv_state * option exn :=
  match rows with
  | [] => (st, None)
  | row :: rest =>
      match convert_csv_row row with
      | Raise ValueError =>
          csv_rows db rest
            (mk_csv_state (committed st) (pending st) (rows_imported st)
               (S (skipped st)) (batches st))
      | Raise ex => (st, Some ex)
      | Ok t =>
          let batch_data := pending st ++ [t] in
          if (batch_size <=? List.length batch_data)%nat
          then
            if executemany_raises db (rows_imported st)
            then (mk_csv_state (committed st) batch_data (rows_imported st)
                    (skipped st) (batches st),
                  Some DatabaseError)
            else
              csv_rows db rest
                (mk_csv_state (committed st ++ batch_data) []
                   (rows_imported st + List.length batch_data)
                   (skipped st) (batches st ++ [batch_data]))
          else
            csv_rows db rest
              (mk_csv_state (committed st) batch_data (rows_imported st)
                 (skipped st) (batches st))
      end
  end.

(** From [batch_data = []] to the [return]: the returned flag and the state,
    whose [committed] is the table as it is left ([conn.rollback()] discards
    what is pending). *)
Definition import_rows (db : csv_db) (table0 : list backup_row)
  (rows : list csv_row) : bool * csv_state :=
  match csv_rows db rows (mk_csv_state table0 [] 0 0 []) with
  | (st, Some _) => (false, st)
  | (st, None) =>
      match pending st with
      | [] => (negb (count_raises db), st)
      | _ :: _ =>
          if executemany_raises db (rows_imported st)
          then (false, st)
          else
            (negb (count_raises db),
             mk_csv_state (committed st ++ pending st) []
               (rows_imported st + List.length (pending st))
               (skipped st) (batches st ++ [pending st]))
      end
  end.

(** The rows of the file that translate, in the order of the file. *)
Fixpoint valid_rows (rows : list csv_row) : list backup_row :=
  match rows with
  | [] => []
  | row :: rest =>
      match convert_csv_row row with
      | Ok t => t :: valid_rows rest
      | Raise _ => valid_rows rest
      end
  end.

(** No row raises anything but [ValueError]. *)
Definition only_value_errors (rows : list csv_row) : Prop :=
  forall row ex, In row rows -> convert_csv_row row = Raise ex -> ex = ValueError.

End CsvImport.

(** Toy parsers for the examples: the one date and the one number they know. *)
Definition toy_strptime (s : string) : option Z :=
  if (s =? "2017-08-17 00:00:00")%string then Some 1502928000 else None.

Definition toy_float (s : string) : option Q :=
  if (s =? "4261.48")%string then Some (426148 # 100)%Q else None.

Definition toy_row : csv_row :=
  mk_csv_row (Some "BTC"%string) (Some "1m"%string)
    (Some "2017-08-17 00:00:00"%string)
    (Some "4261.48"%string) (Some "4261.48"%string) (Some "4261.48"%string)
    (Some "4261.48"%string) (Some "4261.48"%string)
    (Some ""%string) (Some "2017-08-17 00:00:00"%string).

Definition toy_backup_row : backup_row :=
  mk_backup_row (Some "BTC"%string) (Some "1m"%string) 1502928000
    (426148 # 100) (426148 # 100) (426148 # 100) (426148 # 100) (426148 # 100)
    None (Some 1502928000).

(** A row whose price is not a number, and a line that stops after the time
    frame. *)
Definition toy_bad_price_row : csv_row :=
  mk_csv_row (Some "BTC"%string) (Some "1m"%string)
    (Some "2017-08-17 00:00:00"%string)
    (Some "n/a"%string) (Some "4261.48"%string) (Some "4261.48"%string)
    (Some "4261.48"%string) (Some "4261.48"%string)
    (Some ""%string) (Some ""%string).

Definition toy_short_row : csv_row :=
  mk_csv_row (Some "BTC"%string) (Some "1m"%string)
    None None None None None None None None.

Definition good_db : csv_db := mk_csv_db (fun _ => false) false.

(** ** Worked examples *)

Example start_timestamp_value : start_timestamp = 1502928000000.
Proof. reflexivity. Qed.

Example convert_candle (t : Z) :
  convert_kline_to_db_format (candle t) = Ok (candle_row t).
Proof. reflexivity. Qed.

Example convert_short_record :
  convert_kline_to_db_format (short_record 0) = Raise IndexError.
Proof. reflexivity. Qed.

Example convert_bad_price_record :
  convert_kline_to_db_format (bad_price_record 0) = Raise ValueError.
Proof. reflexivity. Qed.

Example convert_null_open_time :
  convert_kline_to_db_format [JNull] = Raise TypeError.
Proof. reflexivity. Qed.

(** A table that ends at minute -1 and an upstream with minutes 0 and 1: the
    session starts at 0, commits one page of two rows, asks again one
    millisecond after the last record and stops on the empty page. *)
Example healthy_run :
  import_historical_data 5 (healthy_env [0; 60000]) [candle_row (-60000)] 100000 =
    Some (Returns Completed
            (mk_session 60001 2 2
               [candle_row (-60000); candle_row 0; candle_row 60000]
               [MsgLatestInDb (-60000); MsgScope 1 1;
                CallGet (request 0 None);
                CallExecutemany [candle_row 0; candle_row 60000];
                MsgProgressReport 60001 0 100000 1 2; Sleep;
                CallGet (request 60001 None);
                MsgNoMoreData; MsgImportDone 2 2])).
Proof. reflexivity. Qed.

Example out_of_fuel :
  import_historical_data 0 (healthy_env [0; 60000]) [candle_row (-60000)] 100000
    = None.
Proof. reflexivity. Qed.

(** ** Translator lemmas *)

Ltac case_bind H :=
  match type of H with
  | context [bind ?r _] =>
      let E := fresh "E" in
      destruct r eqn:E; simpl in H; [ | discriminate H ]
  end.

Lemma convert_ok_inv (k : kline) (r : db_row) :
  convert_kline_to_db_format k = Ok r ->
  py_index k 0 = Ok (JInt (OpenTime r)) /\ key_match r = true.
Proof.
  unfold convert_kline_to_db_format. intros H.
  destruct (py_index k 0) as [k0 | ] eqn:E0; simpl in H; [ | discriminate H ].
  destruct k0 as [z | | | ]; simpl in H; try discriminate H.
  repeat case_bind H.
  injection H as <-. simpl. split; reflexivity.
Qed.

Lemma map_result_ok_length {A B : Type} (f : A -> result B) (l : list A) (l' : list B) :
  map_result f l = Ok l' -> List.length l' = List.length l.
Proof.
  revert l'. induction l as [ | x l IH]; simpl; intros l' H.
  - injection H as <-. reflexivity.
  - destruct (f x) as [y | ]; simpl in H; [ | discriminate H ].
    destruct (map_result f l) as [ys | ]; simpl in H; [ | discriminate H ].
    injection H as <-. simpl. f_equal. apply IH. reflexivity.
Qed.

Lemma map_result_ok_last {A B : Type} (f : A -> result B) (l : list A) (l' : list B)
  (da : A) (db : B) :
  map_result f l = Ok l' -> l <> [] -> f (last l da) = Ok (last l' db).
Proof.
  revert l'. induction l as [ | x l IH]; intros l' H Hne.
  - contradiction Hne. reflexivity.
  - simpl in H.
    destruct (f x) as [y | ] eqn:Ex; simpl in H; [ | discriminate H ].
    destruct (map_result f l) as [ys | ] eqn:El; simpl in H; [ | discriminate H ].
    injection H as <-.
    destruct l as [ | x' l].
    + simpl in El. injection El as <-. simpl. exact Ex.
    + destruct ys as [ | y' ys].
      * apply map_result_ok_length in El. discriminate El.
      * change (f (last (x' :: l) da) = Ok (last (y' :: ys) db)).
        apply IH; [ reflexivity | discriminate ].
Qed.

Lemma map_result_raise_iff {A B : Type} (f : A -> result B) (l : list A) :
  (exists ex, map_result f l = Raise ex) <-> (exists x ex, In x l /\ f x = Raise ex).
Proof.
  induction l as [ | x l IH]; simpl.
  - split.
    + intros [ex H]. discriminate H.
    + intros [x [ex [[] _]]].
  - split.
    + intros [ex H].
      destruct (f x) as [y | e0] eqn:Ex; simpl in H.
      * destruct (map_result f l) as [ys | e1] eqn:El; simpl in H; [ discriminate H | ].
        destruct (proj1 IH (ex_intro _ e1 eq_refl)) as [x' [ex' [Hin Hx']]].
        exists x', ex'. split; [ right; exact Hin | exact Hx' ].
      * exists x, e0. split; [ left; reflexivity | exact Ex ].
    + intros [x' [ex' [[<- | Hin] Hx']]].
      * rewrite Hx'. simpl. exists ex'. reflexivity.
      * destruct (f x) as [y | e0]; simpl.
        -- destruct (proj2 IH (ex_intro _ x' (ex_intro _ ex' (conj Hin Hx')))) as [e1 ->].
           simpl. exists e1. reflexivity.
        -- exists e0. reflexivity.
Qed.

(** After a page that translates, the next cursor is the open time of the raw
    page's last record plus one millisecond. *)
Lemma next_start_time_of_converted (klines : list kline) (db_data : list db_row)
  (d : db_row) :
  map_result convert_kline_to_db_format klines = Ok db_data ->
  klines <> [] ->
  next_start_time klines = Ok (OpenTime (last db_data d) + 1).
Proof.
  intros H Hne.
  pose proof (map_result_ok_last _ _ _ [] d H Hne) as Hl.
  apply convert_ok_inv in Hl. destruct Hl as [Hl _].
  unfold next_start_time. unfold kline in *. rewrite Hl. reflexivity.
Qed.

(** ** The latest stored timestamp *)

Lemma fold_left_max_spec (l : list Z) (a : Z) :
  (fold_left Z.max l a = a \/ In (fold_left Z.max l a) l) /\
  a <= fold_left Z.max l a /\
  (forall x, In x l -> x <= fold_left Z.max l a).
Proof.
  revert a. induction l as [ | y l IH]; simpl; intros a.
  - repeat split; [ left; reflexivity | lia | intros x [] ].
  - destruct (IH (Z.max a y)) as [Hmem [Hge Hall]].
    repeat split.
    + destruct Hmem as [Hm | Hm].
      * rewrite Hm. destruct (Z.max_spec a y) as [[_ ->] | [_ ->]]; auto.
      * right. right. exact Hm.
    + lia.
    + intros x [<- | Hx]; [ lia | apply Hall; exact Hx ].
Qed.

Lemma fold_left_sql_max_some (l : list Z) (a : Z) :
  fold_left sql_max l (Some a) = Some (fold_left Z.max l a).
Proof.
  revert a. induction l as [ | y l IH]; simpl; intros a; [ reflexivity | apply IH ].
Qed.

Lemma select_max_none (tbl : list db_row) :
  select_max_open_time tbl = None <-> no_rows_for_key tbl.
Proof.
  unfold select_max_open_time, no_rows_for_key. split.
  - intros H r Hr. destruct (key_match r) eqn:Ek; [ | reflexivity ].
    assert (Hin : In r (filter key_match tbl)) by (apply filter_In; auto).
    destruct (filter key_match tbl) as [ | r0 l]; [ destruct Hin | ].
    simpl in H. rewrite fold_left_sql_max_some in H. discriminate H.
  - intros H. destruct (filter key_match tbl) as [ | r0 l] eqn:Ef; [ reflexivity | ].
    assert (Hin : In r0 (filter key_match tbl)) by (rewrite Ef; left; reflexivity).
    apply filter_In in Hin. destruct Hin as [Hin Hk].
    rewrite (H r0 Hin) in Hk. discriminate Hk.
Qed.

Lemma select_max_some (tbl : list db_row) (m : Z) :
  select_max_open_time tbl = Some m -> stored_max tbl m.
Proof.
  unfold select_max_open_time, stored_max. intros H.
  destruct (filter key_match tbl) as [ | r0 l] eqn:Ef; [ discriminate H | ].
  simpl in H. rewrite fold_left_sql_max_some in H. injection H as <-.
  destruct (fold_left_max_spec (map OpenTime l) (OpenTime r0)) as [Hmem [Hge Hall]].
  assert (Hsub : forall r, In r (r0 :: l) -> In r tbl /\ key_match r = true).
  { intros r Hr. rewrite <- Ef in Hr. apply filter_In in Hr. exact Hr. }
  split.
  - destruct Hmem as [Hm | Hm].
    + exists r0. destruct (Hsub r0 (or_introl eq_refl)) as [Hin Hk].
      repeat split; auto.
    + apply in_map_iff in Hm. destruct Hm as [r [Hr Hin]].
      exists r. destruct (Hsub r (or_intror Hin)) as [Hin' Hk].
      repeat split; auto.
  - intros r Hr Hk.
    assert (Hf : In r (r0 :: l)) by (rewrite <- Ef; apply filter_In; auto).
    destruct Hf as [<- | Hf]; [ exact Hge | ].
    apply Hall. apply in_map. exact Hf.
Qed.

Lemma stored_max_unique (tbl : list db_row) (m m' : Z) :
  stored_max tbl m -> stored_max tbl m' -> m = m'.
Proof.
  intros [[r [Hr [Hk <-]]] Hle] [[r' [Hr' [Hk' <-]]] Hle'].
  pose proof (Hle r' Hr' Hk'). pose proof (Hle' r Hr Hk). lia.
Qed.

Lemma stored_max_not_empty (tbl : list db_row) (m : Z) :
  stored_max tbl m -> no_rows_for_key tbl -> False.
Proof.
  intros [[r [Hr [Hk _]]] _] Hno. rewrite (Hno r Hr) in Hk. discriminate Hk.
Qed.

Lemma select_max_cases (tbl : list db_row) :
  (exists m, select_max_open_time tbl = Some m /\ stored_max tbl m) \/
  (select_max_open_time tbl = None /\ no_rows_for_key tbl).
Proof.
  destruct (select_max_open_time tbl) as [m | ] eqn:E.
  - left. exists m. split; [ reflexivity | apply select_max_some; exact E ].
  - right. split; [ reflexivity | apply select_max_none; exact E ].
Qed.

(** ** One cycle of the loop *)

Lemma fetch_events_head (e : env) (s : session) :
  exists l, fetch_events e s = CallGet (request (start_time s) None) :: l.
Proof.
  unfold fetch_events, fetch_klines.
  destruct (api e (S (batch_count s)) (request (start_time s) None)); simpl; eauto.
Qed.

Lemma loop_body_empty (e : env) (ct orig : Z) (s : session) :
  page_of e s = [] ->
  loop_body e ct orig s =
    (Break,
     mk_session (start_time s) (total_records s) (S (batch_count s)) (table s)
       (out s ++ fetch_events e s ++ [MsgNoMoreData])).
Proof.
  unfold page_of, fetch_events, loop_body. intros H.
  destruct (fetch_klines _ _ _) as [ev klines]. simpl in *. subst klines. reflexivity.
Qed.

Lemma loop_body_convert_raises (e : env) (ct orig : Z) (s : session) (ex : exn) :
  map_result convert_kline_to_db_format (page_of e s) = Raise ex ->
  loop_body e ct orig s =
    (Raised ex,
     mk_session (start_time s) (total_records s) (S (batch_count s)) (table s)
       (out s ++ fetch_events e s)).
Proof.
  unfold page_of, fetch_events, loop_body. intros H.
  destruct (fetch_klines _ _ _) as [ev klines]. simpl in *.
  destruct klines as [ | k klines]; [ discriminate H | ].
  rewrite H. reflexivity.
Qed.

Lemma loop_body_converted (e : env) (ct orig : Z) (s : session)
  (db_data : list db_row) :
  page_of e s <> [] ->
  map_result convert_kline_to_db_format (page_of e s) = Ok db_data ->
  loop_body e ct orig s =
    match bulk_insert_data (insert_outcome e (S (batch_count s))) (table s) db_data with
    | (ev_insert, table', Raise ex) =>
        (Raised ex,
         mk_session (start_time s) (total_records s) (S (batch_count s)) table'
           (out s ++ fetch_events e s ++ ev_insert))
    | (ev_insert, table', Ok inserted) =>
        let total := (total_records s + inserted)%nat in
        match next_start_time (page_of e s) with
        | Raise ex =>
            (Raised ex,
             mk_session (start_time s) total (S (batch_count s)) table'
               (out s ++ fetch_events e s ++ ev_insert))
        | Ok cursor =>
            (Continue,
             mk_session cursor total (S (batch_count s)) table'
               (out s ++ fetch_events e s ++ ev_insert
                  ++ report (S (batch_count s)) cursor orig ct total
                  ++ [Sleep]
                  ++ checkpoint (S (batch_count s)) cursor total))
        end
    end.
Proof.
  unfold page_of, fetch_events, loop_body. intros Hne H.
  destruct (fetch_klines _ _ _) as [ev klines]. simpl in *.
  destruct klines as [ | k klines]; [ contradiction Hne; reflexivity | ].
  rewrite H. reflexivity.
Qed.

Lemma converted_not_nil (klines : list kline) (db_data : list db_row) :
  klines <> [] ->
  map_result convert_kline_to_db_format klines = Ok db_data ->
  db_data <> [].
Proof.
  intros Hne H Hnil. apply map_result_ok_length in H. subst db_data.
  destruct klines; [ contradiction Hne; reflexivity | discriminate H ].
Qed.

(** A cycle whose page translates and whose insert is committed. *)
Lemma loop_body_committed (e : env) (ct orig : Z) (s : session)
  (db_data : list db_row) (d : db_row) :
  page_of e s <> [] ->
  map_result convert_kline_to_db_format (page_of e s) = Ok db_data ->
  insert_outcome e (S (batch_count s)) = DbOk ->
  let cursor := OpenTime (last db_data d) + 1 in
  let total := (total_records s + List.length db_data)%nat in
  loop_body e ct orig s =
    (Continue,
     mk_session cursor total (S (batch_count s)) (table s ++ db_data)
       (out s ++ fetch_events e s ++ [CallExecutemany db_data]
          ++ report (S (batch_count s)) cursor orig ct total
          ++ [Sleep]
          ++ checkpoint (S (batch_count s)) cursor total)).
Proof.
  intros Hne H Hins. simpl.
  rewrite (loop_body_converted e ct orig s db_data Hne H).
  pose proof (converted_not_nil _ _ Hne H) as Hd.
  rewrite (next_start_time_of_converted _ _ d H Hne).
  unfold bulk_insert_data. rewrite Hins.
  destruct db_data as [ | r l]; [ contradiction Hd; reflexivity | reflexivity ].
Qed.

(** A cycle whose page translates and whose insert raises and is rolled back. *)
Lemma loop_body_rolled_back (e : env) (ct orig : Z) (s : session)
  (db_data : list db_row) (d : db_row) :
  page_of e s <> [] ->
  map_result convert_kline_to_db_format (page_of e s) = Ok db_data ->
  insert_outcome e (S (batch_count s)) = DbRaises ->
  let cursor := OpenTime (last db_data d) + 1 in
  let total := (total_records s + 0)%nat in
  loop_body e ct orig s =
    (Continue,
     mk_session cursor total (S (batch_count s)) (table s)
       (out s ++ fetch_events e s ++ [CallExecutemany db_data; MsgInsertError]
          ++ report (S (batch_count s)) cursor orig ct total
          ++ [Sleep]
          ++ checkpoint (S (batch_count s)) cursor total)).
Proof.
  intros Hne H Hins. simpl.
  rewrite (loop_body_converted e ct orig s db_data Hne H).
  pose proof (converted_not_nil _ _ Hne H) as Hd.
  rewrite (next_start_time_of_converted _ _ d H Hne).
  unfold bulk_insert_data. rewrite Hins.
  destruct db_data as [ | r l]; [ contradiction Hd; reflexivity | reflexivity ].
Qed.

(** Whatever a cycle does, it counts one batch, starts by one request at the
    cursor, and only appends to the table and to the output. *)
Lemma loop_body_frame (e : env) (ct orig : Z) (s : session) :
  let s' := snd (loop_body e ct orig s) in
  batch_count s' = S (batch_count s) /\
  (exists l, out s' = out s ++ CallGet (request (start_time s) None) :: l) /\
  (exists l, table s' = table s ++ l).
Proof.
  simpl.
  destruct (fetch_events_head e s) as [evs Hev].
  destruct (page_of e s) as [ | k0 ks] eqn:Ep.
  - rewrite (loop_body_empty e ct orig s Ep). simpl. rewrite Hev.
    repeat split; [ eexists; reflexivity | exists []; symmetry; apply app_nil_r ].
  - destruct (map_result convert_kline_to_db_format (page_of e s)) as [db_data | ex] eqn:Ec.
    + assert (Hne : page_of e s <> []) by (rewrite Ep; discriminate).
      rewrite (loop_body_converted e ct orig s db_data Hne Ec).
      unfold bulk_insert_data.
      destruct db_data as [ | r l];
        [ | destruct (insert_outcome e (S (batch_count s))) ];
        try destruct (next_start_time (page_of e s)); simpl; rewrite Hev; simpl;
        repeat split;
        try (eexists; reflexivity);
        try (exists []; symmetry; apply app_nil_r).
    + rewrite (loop_body_convert_raises e ct orig s ex Ec). simpl. rewrite Hev.
      repeat split; [ eexists; reflexivity | exists []; symmetry; apply app_nil_r ].
Qed.

(** ** The loop *)

Lemma while_loop_done (fuel : nat) (e : env) (ct orig : Z) (s : session) :
  ct <= start_time s -> while_loop fuel e ct orig s = Some (CondFalse, s).
Proof.
  intros H. destruct fuel; simpl;
    (destruct (start_time s <? ct) eqn:E; [ apply Z.ltb_lt in E; lia | reflexivity ]).
Qed.

Lemma while_loop_step (fuel : nat) (e : env) (ct orig : Z) (s : session) :
  start_time s < ct ->
  while_loop (S fuel) e ct orig s =
    match loop_body e ct orig s with
    | (Continue, s') => while_loop fuel e ct orig s'
    | (Break, s') => Some (Broke, s')
    | (Raised ex, s') => Some (Threw ex, s')
    end.
Proof.
  intros H. simpl. apply Z.ltb_lt in H. rewrite H. reflexivity.
Qed.

Lemma no_more_data_not_in_fetch (e : env) (s : session) :
  ~ In MsgNoMoreData (fetch_events e s).
Proof.
  unfold fetch_events, fetch_klines.
  destruct (api e (S (batch_count s)) (request (start_time s) None)); simpl;
    intros H; repeat (destruct H as [H | H]; [ discriminate H | ]); exact H.
Qed.

Lemma no_more_data_not_in_report (bc : nat) (c orig ct : Z) (total : nat) :
  ~ In MsgNoMoreData (report bc c orig ct total ++ [Sleep] ++ checkpoint bc c total).
Proof.
  unfold report, checkpoint.
  destruct ((bc <=? 5)%nat || (bc mod 20 =? 0)%nat);
    destruct (bc mod 5 =? 0)%nat; destruct (bc mod 100 =? 0)%nat; simpl;
    intros H; repeat (destruct H as [H | H]; [ discriminate H | ]); exact H.
Qed.

Lemma no_more_data_not_in_insert (o : db_outcome) (tbl batch : list db_row) :
  ~ In MsgNoMoreData (fst (fst (bulk_insert_data o tbl batch))).
Proof.
  unfold bulk_insert_data. destruct batch; [ intros [] | ].
  destruct o; simpl;
    intros H; repeat (destruct H as [H | H]; [ discriminate H | ]); exact H.
Qed.

(** The warning of an empty page is printed by the cycles that leave the loop
    through [break], and by no other. *)
Lemma loop_body_no_more_data (e : env) (ct orig : Z) (s : session) :
  ~ In MsgNoMoreData (out s) ->
  (In MsgNoMoreData (out (snd (loop_body e ct orig s))) <->
   fst (loop_body e ct orig s) = Break).
Proof.
  intros Hs.
  pose proof (no_more_data_not_in_fetch e s) as Hf.
  destruct (page_of e s) as [ | k0 ks] eqn:Ep.
  - rewrite (loop_body_empty e ct orig s Ep). simpl. split; [ reflexivity | ].
    intros _. apply in_or_app. right. apply in_or_app. right. left. reflexivity.
  - destruct (map_result convert_kline_to_db_format (page_of e s)) as [db_data | ex] eqn:Ec.
    + assert (Hne : page_of e s <> []) by (rewrite Ep; discriminate).
      rewrite (loop_body_converted e ct orig s db_data Hne Ec).
      pose proof (no_more_data_not_in_insert (insert_outcome e (S (batch_count s)))
                    (table s) db_data) as Hi.
      destruct (bulk_insert_data _ _ _) as [[ev_insert table'] [inserted | ex]];
        simpl in Hi.
      * destruct (next_start_time (page_of e s)) as [cursor | ex]; simpl.
        -- pose proof (no_more_data_not_in_report (S (batch_count s)) cursor orig ct
                         (total_records s + inserted)%nat) as Hr.
           split; [ | discriminate ].
           intros H.
           do 3 (apply in_app_or in H; destruct H as [H | H]; [ contradiction | ]).
           destruct (Hr H).
        -- split; [ | discriminate ].
           intros H. repeat (apply in_app_or in H; destruct H as [H | H]);
             contradiction.
      * simpl. split; [ | discriminate ].
        intros H. repeat (apply in_app_or in H; destruct H as [H | H]);
          contradiction.
    + rewrite (loop_body_convert_raises e ct orig s ex Ec). simpl.
      split; [ | discriminate ].
      intros H. apply in_app_or in H. destruct H as [H | H]; contradiction.
Qed.

Lemma loop_body_break_cursor (e : env) (ct orig : Z) (s s' : session) :
  loop_body e ct orig s = (Break, s') -> start_time s' = start_time s.
Proof.
  intros H.
  destruct (page_of e s) as [ | k0 ks] eqn:Ep.
  - rewrite (loop_body_empty e ct orig s Ep) in H. injection H as <-. reflexivity.
  - destruct (map_result convert_kline_to_db_format (page_of e s)) as [db_data | ex] eqn:Ec.
    + assert (Hne : page_of e s <> []) by (rewrite Ep; discriminate).
      rewrite (loop_body_converted e ct orig s db_data Hne Ec) in H.
      destruct (bulk_insert_data _ _ _) as [[ev_insert table'] [inserted | ex]];
        [ destruct (next_start_time (page_of e s)) | ]; discriminate H.
    + rewrite (loop_body_convert_raises e ct orig s ex Ec) in H. discriminate H.
Qed.

(** How the loop was left can be read off the final state. *)
Lemma while_loop_exit (fuel : nat) (e : env) (ct orig : Z) :
  forall (s s' : session) (x : loop_exit),
  while_loop fuel e ct orig s = Some (x, s') ->
  ~ In MsgNoMoreData (out s) ->
  (In MsgNoMoreData (out s') <-> x = Broke) /\
  (x = CondFalse -> ct <= start_time s') /\
  (x = Broke -> start_time s' < ct).
Proof.
  induction fuel as [ | fuel IH]; intros s s' x H Hs.
  - simpl in H. destruct (start_time s <? ct) eqn:E; [ discriminate H | ].
    injection H as <- <-. apply Z.ltb_ge in E.
    repeat split; try discriminate; try tauto.
  - destruct (Z.lt_ge_cases (start_time s) ct) as [Hlt | Hge].
    + rewrite (while_loop_step fuel e ct orig s Hlt) in H.
      pose proof (loop_body_no_more_data e ct orig s Hs) as Hb.
      destruct (loop_body e ct orig s) as [[ | | ex] s1] eqn:El; simpl in Hb.
      * apply (IH s1 s' x H). intros Hin. apply Hb in Hin. discriminate Hin.
      * injection H as <- <-. apply loop_body_break_cursor in El.
        repeat split; try discriminate; try tauto. intros _. lia.
      * injection H as <- <-.
        repeat split; try discriminate. intros Hin. apply Hb in Hin. discriminate Hin.
    + rewrite (while_loop_done (S fuel) e ct orig s Hge) in H.
      injection H as <- <-.
      repeat split; try discriminate; try tauto.
Qed.

Lemma while_loop_frame (fuel : nat) (e : env) (ct orig : Z) :
  forall (s s' : session) (x : loop_exit),
  while_loop fuel e ct orig s = Some (x, s') ->
  (exists l, out s' = out s ++ l) /\ (exists l, table s' = table s ++ l).
Proof.
  induction fuel as [ | fuel IH]; intros s s' x H.
  - simpl in H. destruct (start_time s <? ct); [ discriminate H | ].
    injection H as <- <-. split; exists []; symmetry; apply app_nil_r.
  - destruct (Z.lt_ge_cases (start_time s) ct) as [Hlt | Hge].
    + rewrite (while_loop_step fuel e ct orig s Hlt) in H.
      destruct (loop_body_frame e ct orig s) as [_ [[lo Ho] [lt Ht]]].
      destruct (loop_body e ct orig s) as [[ | | ex] s1]; simpl in Ho, Ht.
      * destruct (IH s1 s' x H) as [[lo' Ho'] [lt' Ht']].
        rewrite Ho' , Ht', Ho, Ht. rewrite <- !app_assoc.
        split; eexists; reflexivity.
      * injection H as <- <-. split; eexists; eassumption.
      * injection H as <- <-. split; eexists; eassumption.
    + rewrite (while_loop_done (S fuel) e ct orig s Hge) in H.
      injection H as <- <-. split; exists []; symmetry; apply app_nil_r.
Qed.

Lemma first_request_app (l1 l2 : list event) (p : params) :
  first_request l1 = None ->
  first_request (l1 ++ CallGet p :: l2) = Some p.
Proof.
  induction l1 as [ | ev l1 IH]; simpl; intros H; [ reflexivity | ].
  destruct ev; try (apply IH; exact H). discriminate H.
Qed.

Lemma first_request_none_app (l1 l2 : list event) :
  first_request l1 = None -> first_request l2 = None ->
  first_request (l1 ++ l2) = None.
Proof.
  induction l1 as [ | ev l1 IH]; simpl; intros H1 H2; [ exact H2 | ].
  destruct ev; try (apply IH; assumption). discriminate H1.
Qed.

(** Once the loop is entered, its first request is made at the cursor it was
    entered with. *)
Lemma while_loop_first_request (fuel : nat) (e : env) (ct orig : Z)
  (s s' : session) (x : loop_exit) :
  start_time s < ct ->
  first_request (out s) = None ->
  while_loop (S fuel) e ct orig s = Some (x, s') ->
  first_request (out s') = Some (request (start_time s) None).
Proof.
  intros Hlt Hnone H.
  rewrite (while_loop_step fuel e ct orig s Hlt) in H.
  destruct (loop_body_frame e ct orig s) as [_ [[lo Ho] _]].
  destruct (loop_body e ct orig s) as [[ | | ex] s1]; simpl in Ho.
  - destruct (while_loop_frame fuel e ct orig s1 s' x H) as [[lo' Ho'] _].
    rewrite Ho', Ho. rewrite <- app_assoc. simpl.
    apply first_request_app. exact Hnone.
  - injection H as <- <-. rewrite Ho. apply first_request_app. exact Hnone.
  - injection H as <- <-. rewrite Ho. apply first_request_app. exact Hnone.
Qed.

(** ** The session *)

Lemma get_latest_timestamp_events (o : db_outcome) (off : Z -> Z)
  (tbl : list db_row) :
  first_request (fst (get_latest_timestamp o off tbl)) = None /\
  ~ In MsgNoMoreData (fst (get_latest_timestamp o off tbl)).
Proof.
  unfold get_latest_timestamp.
  destruct o; [ destruct (select_max_open_time tbl) | | ]; simpl;
    (split; [ reflexivity | ]);
    intros H; repeat (destruct H as [H | H]; [ discriminate H | ]); exact H.
Qed.

Lemma import_unfold (fuel : nat) (e : env) (table0 : list db_row) (ct : Z)
  (ev : list event) (start : Z) :
  get_latest_timestamp (select_outcome e) (local_offset e) table0 = (ev, Ok start) ->
  import_historical_data fuel e table0 ct =
    if ct <=? start
    then Some (Returns UpToDate
                 (mk_session start 0 0 table0 (ev ++ [MsgAlreadyUpToDate])))
    else
      match while_loop fuel e ct start (entry_session ev start table0 ct) with
      | None => None
      | Some (Threw ex, s) =>
          Some (Returns (Failed ex)
                  (mk_session (start_time s) (total_records s) (batch_count s)
                     (table s) (out s ++ [MsgImportError (total_records s)])))
      | Some (_, s) =>
          Some (Returns Completed
                  (mk_session (start_time s) (total_records s) (batch_count s)
                     (table s)
                     (out s ++ [MsgImportDone (total_records s) (batch_count s)])))
      end.
Proof.
  intros H. unfold import_historical_data, entry_session. rewrite H. reflexivity.
Qed.

Lemma entry_session_quiet (ev : list event) (start : Z) (table0 : list db_row)
  (ct : Z) (o : db_outcome) (off : Z -> Z) (r : result Z) :
  get_latest_timestamp o off table0 = (ev, r) ->
  first_request (out (entry_session ev start table0 ct)) = None /\
  ~ In MsgNoMoreData (out (entry_session ev start table0 ct)).
Proof.
  intros H. destruct (get_latest_timestamp_events o off table0) as [H1 H2].
  rewrite H in H1, H2. simpl in *. split.
  - apply first_request_none_app; [ exact H1 | reflexivity ].
  - intros Hin. apply in_app_or in Hin. destruct Hin as [Hin | [Hin | []]];
      [ contradiction | discriminate Hin ].
Qed.

Lemma in_snoc_other {A : Type} (l : list A) (a b : A) :
  a <> b -> (In a (l ++ [b]) <-> In a l).
Proof.
  intros Hab. split.
  - intros H. apply in_app_or in H. destruct H as [H | [H | []]];
      [ exact H | subst; contradiction Hab; reflexivity ].
  - intros H. apply in_or_app. left. exact H.
Qed.

(** ** Exhaustion and completion *)

(** C3, as the code has it.  An empty list received while the cursor is before
    the session target (an empty page, or the empty list that stands for a
    failed request) makes the loop stop at once, after the warning line.  The
    session then ends exactly as a session whose cursor reached the target
    ends: through the same return, after the same closing statistics.  No
    outcome of its own is reported for the exhaustion; the warning line is all
    that tells it, and it is printed exactly when the session completes with
    its cursor before the target.  When the cursor is at or past the target
    the loop ends without any request, and a session whose starting cursor is
    already at the target returns without a single request. *)
Theorem exhaustion_ends_as_completion :
  forall (e : env) (ct : Z),
    (forall orig s fuel,
        start_time s < ct -> page_of e s = [] ->
        while_loop (S fuel) e ct orig s =
          Some (Broke,
                mk_session (start_time s) (total_records s) (S (batch_count s))
                  (table s) (out s ++ fetch_events e s ++ [MsgNoMoreData]))) /\
    (forall orig s fuel,
        ct <= start_time s -> while_loop fuel e ct orig s = Some (CondFalse, s)) /\
    (forall fuel table0 ev start x s1,
        get_latest_timestamp (select_outcome e) (local_offset e) table0
          = (ev, Ok start) ->
        start < ct ->
        while_loop fuel e ct start (entry_session ev start table0 ct)
          = Some (x, s1) ->
        x = Broke \/ x = CondFalse ->
        import_historical_data fuel e table0 ct =
          Some (Returns Completed
                  (mk_session (start_time s1) (total_records s1) (batch_count s1)
                     (table s1)
                     (out s1 ++ [MsgImportDone (total_records s1) (batch_count s1)])))) /\
    (forall fuel table0 ev start,
        get_latest_timestamp (select_outcome e) (local_offset e) table0
          = (ev, Ok start) ->
        start < ct ->
        let s0 := entry_session ev start table0 ct in
        page_of e s0 = [] ->
        import_historical_data (S fuel) e table0 ct =
          Some (Returns Completed
                  (mk_session start 0 1 table0
                     ((out s0 ++ fetch_events e s0 ++ [MsgNoMoreData])
                        ++ [MsgImportDone 0 1])))) /\
    (forall fuel table0 ev start,
        get_latest_timestamp (select_outcome e) (local_offset e) table0
          = (ev, Ok start) ->
        ct <= start ->
        import_historical_data fuel e table0 ct =
          Some (Returns UpToDate
                  (mk_session start 0 0 table0 (ev ++ [MsgAlreadyUpToDate]))) /\
        first_request (ev ++ [MsgAlreadyUpToDate]) = None) /\
    (forall fuel table0 o s,
        import_historical_data fuel e table0 ct = Some (Returns o s) ->
        (In MsgNoMoreData (out s) <-> o = Completed /\ start_time s < ct) /\
        (o = Completed ->
         exists printed,
           out s = printed ++ [MsgImportDone (total_records s) (batch_count s)]) /\
        (o = UpToDate -> ct <= start_time s /\ first_request (out s) = None)).
Proof.
  intros e ct.
  assert (Hbreak : forall orig s fuel,
             start_time s < ct -> page_of e s = [] ->
             while_loop (S fuel) e ct orig s =
               Some (Broke,
                     mk_session (start_time s) (total_records s) (S (batch_count s))
                       (table s) (out s ++ fetch_events e s ++ [MsgNoMoreData]))).
  { intros orig s fuel Hlt Hp.
    rewrite (while_loop_step fuel e ct orig s Hlt).
    rewrite (loop_body_empty e ct orig s Hp). reflexivity. }
  split; [ exact Hbreak | ].
  split; [ intros orig s fuel Hge; apply while_loop_done; exact Hge | ].
  split; [ | split; [ | split ] ].
  - intros fuel table0 ev start x s1 Eg Hlt Hw Hx.
    rewrite (import_unfold fuel e table0 ct ev start Eg).
    destruct (ct <=? start) eqn:Ecmp; [ apply Z.leb_le in Ecmp; lia | ].
    rewrite Hw. destruct Hx as [-> | ->]; reflexivity.
  - intros fuel table0 ev start Eg Hlt s0 Hp.
    rewrite (import_unfold (S fuel) e table0 ct ev start Eg).
    destruct (ct <=? start) eqn:Ecmp; [ apply Z.leb_le in Ecmp; lia | ].
    fold s0. rewrite (Hbreak start s0 fuel Hlt Hp). reflexivity.
  - intros fuel table0 ev start Eg Hge.
    rewrite (import_unfold fuel e table0 ct ev start Eg).
    apply Z.leb_le in Hge. rewrite Hge. split; [ reflexivity | ].
    destruct (get_latest_timestamp_events (select_outcome e) (local_offset e) table0)
      as [Hq _].
    rewrite Eg in Hq. simpl in Hq.
    apply first_request_none_app; [ exact Hq | reflexivity ].
  - intros fuel table0 o s H.
    destruct (get_latest_timestamp (select_outcome e) (local_offset e) table0)
      as [ev [start | ex]] eqn:Eg.
    + rewrite (import_unfold fuel e table0 ct ev start Eg) in H.
      destruct (get_latest_timestamp_events (select_outcome e) (local_offset e) table0)
        as [Hq Hn].
      rewrite Eg in Hq, Hn. simpl in Hq, Hn.
      destruct (ct <=? start) eqn:Ecmp.
      * injection H as <- <-. apply Z.leb_le in Ecmp. simpl. split; [ | split ].
        -- split.
           ++ intros Hin. apply in_snoc_other in Hin; [ contradiction | discriminate ].
           ++ intros [Hc _]. discriminate Hc.
        -- discriminate.
        -- intros _. split; [ exact Ecmp | ].
           apply first_request_none_app; [ exact Hq | reflexivity ].
      * destruct (entry_session_quiet ev start table0 ct _ _ _ Eg) as [_ Hquiet].
        destruct (while_loop fuel e ct start (entry_session ev start table0 ct))
          as [[x s1] | ] eqn:Ew; [ | discriminate H ].
        destruct (while_loop_exit fuel e ct start _ _ _ Ew Hquiet) as [Hiff [Hcf Hbr]].
        destruct x as [ | | ex]; injection H as <- <-; simpl.
        -- split; [ | split; [ | discriminate ] ].
           ++ rewrite in_snoc_other by discriminate. split.
              ** intros Hin. apply Hiff in Hin. discriminate Hin.
              ** intros [_ Hlt]. specialize (Hcf eq_refl). lia.
           ++ intros _. exists (out s1). reflexivity.
        -- split; [ | split; [ | discriminate ] ].
           ++ rewrite in_snoc_other by discriminate. split.
              ** intros _. split; [ reflexivity | apply Hbr; reflexivity ].
              ** intros _. apply Hiff. reflexivity.
           ++ intros _. exists (out s1). reflexivity.
        -- split; [ | split; discriminate ].
           rewrite in_snoc_other by discriminate. split.
           ++ intros Hin. apply Hiff in Hin. discriminate Hin.
           ++ intros [Hc _]. discriminate Hc.
    + unfold import_historical_data in H. rewrite Eg in H. discriminate H.
Qed.

Lemma exhaustion_ends_as_completion_witness :
  let e := healthy_env [] in
  let ct := start_timestamp + 1 in
  let s0 := entry_session [MsgNoExistingData] start_timestamp [] ct in
  (start_time s0 < ct /\ page_of e s0 = [] /\
   while_loop 1 e ct start_timestamp s0 =
     Some (Broke,
           mk_session (start_time s0) (total_records s0) (S (batch_count s0))
             (table s0) (out s0 ++ fetch_events e s0 ++ [MsgNoMoreData]))) /\
  (ct <= ct + 5 /\
   while_loop 0 e ct start_timestamp (mk_session (ct + 5) 0 0 [] []) =
     Some (CondFalse, mk_session (ct + 5) 0 0 [] [])) /\
  (get_latest_timestamp (select_outcome e) (local_offset e) []
     = ([MsgNoExistingData], Ok start_timestamp) /\
   import_historical_data 1 e [] ct =
     Some (Returns Completed
             (mk_session start_timestamp 0 1 []
                [MsgNoExistingData; scope start_timestamp ct;
                 CallGet (request start_timestamp None);
                 MsgNoMoreData; MsgImportDone 0 1]))) /\
  (exists o s,
      import_historical_data 1 e [] ct = Some (Returns o s) /\
      (In MsgNoMoreData (out s) <-> o = Completed /\ start_time s < ct)).
Proof.
  intros e ct s0.
  destruct (exhaustion_ends_as_completion e ct) as [H1 [H2 [_ [H4 [_ H6]]]]].
  assert (Hlt : start_time s0 < ct) by (vm_compute; reflexivity).
  assert (Hp : page_of e s0 = []) by reflexivity.
  assert (Eg : get_latest_timestamp (select_outcome e) (local_offset e) []
               = ([MsgNoExistingData], Ok start_timestamp)) by reflexivity.
  split; [ | split; [ | split ] ].
  - split; [ exact Hlt | split; [ exact Hp | ] ].
    exact (H1 start_timestamp s0 0%nat Hlt Hp).
  - assert (Hge : ct <= ct + 5) by lia.
    split; [ exact Hge | ].
    exact (H2 start_timestamp (mk_session (ct + 5) 0 0 [] []) 0%nat Hge).
  - split; [ exact Eg | ].
    exact (H4 0%nat [] [MsgNoExistingData] start_timestamp Eg Hlt Hp).
  - eexists. eexists. split; [ reflexivity | ].
    exact (proj1 (H6 1%nat [] _ _ eq_refl)).
Defined.

(** The claim that exhaustion is reported as an outcome of its own fails on
    the empty upstream: the session that is cut short by an empty page and the
    session that reaches its target both return through the completed path and
    both close with the statistics line; and the warning line of the first is
    also the one printed after a request that failed. *)
Lemma exhaustion_counterexample :
  let ct := start_timestamp + 1 in
  exists s_exhausted s_done s_failed,
    import_historical_data 2 (healthy_env []) [] ct
      = Some (Returns Completed s_exhausted) /\
    start_time s_exhausted < ct /\
    last (out s_exhausted) Sleep = MsgImportDone 0 1 /\
    import_historical_data 2 (healthy_env [start_timestamp]) [] ct
      = Some (Returns Completed s_done) /\
    ct <= start_time s_done /\
    last (out s_done) Sleep = MsgImportDone 1 1 /\
    import_historical_data 2 failing_api_env [] ct
      = Some (Returns Completed s_failed) /\
    In MsgNoMoreData (out s_exhausted) /\
    In MsgNoMoreData (out s_failed).
Proof.
  intros ct. eexists. eexists. eexists.
  split; [ reflexivity | ].
  split; [ vm_compute; reflexivity | ].
  split; [ reflexivity | ].
  split; [ reflexivity | ].
  split; [ vm_compute; discriminate | ].
  split; [ reflexivity | ].
  split; [ reflexivity | ].
  split; simpl; tauto.
Qed.

(** ** The cursor at session start *)

(** What the session does with the cursor it starts from. *)
Lemma session_from_cursor (e : env) (table0 : list db_row) (ev : list event)
  (cursor : Z) :
  get_latest_timestamp (select_outcome e) (local_offset e) table0 = (ev, Ok cursor) ->
  (forall fuel ct,
      ct <= cursor ->
      import_historical_data fuel e table0 ct =
        Some (Returns UpToDate
                (mk_session cursor 0 0 table0 (ev ++ [MsgAlreadyUpToDate])))) /\
  (forall fuel ct o s,
      cursor < ct ->
      import_historical_data (S fuel) e table0 ct = Some (Returns o s) ->
      first_request (out s) = Some (request cursor None)).
Proof.
  intros Eg. split.
  - intros fuel ct Hle. rewrite (import_unfold fuel e table0 ct ev cursor Eg).
    apply Z.leb_le in Hle. rewrite Hle. reflexivity.
  - intros fuel ct o s Hlt H.
    rewrite (import_unfold (S fuel) e table0 ct ev cursor Eg) in H.
    destruct (ct <=? cursor) eqn:Ecmp; [ apply Z.leb_le in Ecmp; lia | ].
    destruct (entry_session_quiet ev cursor table0 ct _ _ _ Eg) as [Hquiet _].
    destruct (while_loop (S fuel) e ct cursor (entry_session ev cursor table0 ct))
      as [[x s1] | ] eqn:Ew; [ | discriminate H ].
    pose proof (while_loop_first_request fuel e ct cursor
                  (entry_session ev cursor table0 ct) s1 x Hlt Hquiet Ew) as Hf.
    simpl in Hf.
    assert (Hfirst : forall tail,
               first_request (out s1 ++ tail) = Some (request cursor None)).
    { intros tail. revert Hf. generalize (out s1). intros l.
      induction l as [ | a l IH]; simpl; [ discriminate | ].
      destruct a; auto. }
    destruct x as [ | | ex]; injection H as <- <-; simpl; apply Hfirst.
Qed.




(** ** A failed read of the latest timestamp *)

Lemma in_both_not_nodup {A : Type} (l1 l2 : list A) (r : A) :
  In r l1 -> In r l2 -> ~ NoDup (l1 ++ l2).
Proof.
  induction l1 as [ | a l1 IH]; intros H1 H2 Hnd; [ destruct H1 | ].
  simpl in Hnd. inversion Hnd as [ | a' l' Hnotin Hnd' ]; subst.
  destruct H1 as [-> | H1].
  - apply Hnotin. apply in_or_app. right. exact H2.
  - exact (IH H1 H2 Hnd').
Qed.

(** C10. When the SELECT of the latest stored timestamp raises,
    [get_latest_timestamp] returns the 2017 epoch, the value it returns for an
    empty table.  The session goes on from there: its first request is made at
    the epoch, and, the INSERT being accepted, the rows of that page are
    appended to the table whether or not the table already holds them. *)
Theorem read_error_restarts_from_epoch :
  forall (e : env) (table0 : list db_row),
    select_outcome e = DbRaises ->
    get_latest_timestamp (select_outcome e) (local_offset e) table0 =
      ([MsgLatestError], Ok start_timestamp) /\
    snd (get_latest_timestamp (select_outcome e) (local_offset e) table0) =
      snd (get_latest_timestamp DbOk (local_offset e) []) /\
    forall (ct : Z) (page : list kline) (db_data : list db_row),
      start_timestamp < ct ->
      api e 1%nat (request start_timestamp None) = HttpOk page ->
      page <> [] ->
      map_result convert_kline_to_db_format page = Ok db_data ->
      insert_outcome e 1%nat = DbOk ->
      (exists s1,
          loop_body e ct start_timestamp
            (entry_session [MsgLatestError] start_timestamp table0 ct)
          = (Continue, s1) /\
          table s1 = table0 ++ db_data /\
          total_records s1 = List.length db_data) /\
      (forall fuel o s,
          import_historical_data (S fuel) e table0 ct = Some (Returns o s) ->
          first_request (out s) = Some (request start_timestamp None) /\
          (exists rest, table s = table0 ++ db_data ++ rest) /\
          (forall r, In r table0 -> In r db_data -> ~ NoDup (table s))).
Proof.
  intros e table0 He.
  assert (Eg : get_latest_timestamp (select_outcome e) (local_offset e) table0 =
               ([MsgLatestError], Ok start_timestamp))
    by (rewrite He; reflexivity).
  split; [ exact Eg | ]. split; [ rewrite Eg; reflexivity | ].
  intros ct page db_data Hlt Hapi Hne Hconv Hins.
  set (s0 := entry_session [MsgLatestError] start_timestamp table0 ct).
  assert (Hpage : page_of e s0 = page).
  { unfold page_of, fetch_klines. simpl. rewrite Hapi. reflexivity. }
  assert (Hne0 : page_of e s0 <> []) by (rewrite Hpage; exact Hne).
  assert (Hconv0 : map_result convert_kline_to_db_format (page_of e s0) = Ok db_data)
    by (rewrite Hpage; exact Hconv).
  pose proof (loop_body_committed e ct start_timestamp s0 db_data (candle_row 0)
                Hne0 Hconv0 Hins) as Hbody.
  simpl in Hbody.
  split.
  - eexists. split; [ exact Hbody | ]. simpl. split; reflexivity.
  - intros fuel o s H.
    assert (Hfirst : first_request (out s) = Some (request start_timestamp None)).
    { destruct (session_from_cursor e table0 _ _ Eg) as [_ Hf].
      exact (Hf fuel ct o s Hlt H). }
    split; [ exact Hfirst | ].
    rewrite (import_unfold (S fuel) e table0 ct _ _ Eg) in H.
    destruct (ct <=? start_timestamp) eqn:Ecmp; [ apply Z.leb_le in Ecmp; lia | ].
    fold s0 in H.
    rewrite (while_loop_step fuel e ct start_timestamp s0 Hlt) in H.
    rewrite Hbody in H.
    match type of H with
    | context [while_loop fuel e ct start_timestamp ?s1] =>
        destruct (while_loop fuel e ct start_timestamp s1) as [[x s2] | ] eqn:Ew;
          [ | discriminate H ]
    end.
    destruct (while_loop_frame _ _ _ _ _ _ _ Ew) as [_ [rest Hrest]].
    simpl in Hrest.
    assert (Ht : table s = table0 ++ db_data ++ rest).
    { rewrite app_assoc. rewrite <- Hrest.
      destruct x as [ | | ex]; injection H as <- <-; reflexivity. }
    split; [ exists rest; exact Ht | ].
    intros r Hr0 Hrd. rewrite Ht. apply (in_both_not_nodup _ _ r); [ exact Hr0 | ].
    apply in_or_app. left. exact Hrd.
Qed.

Lemma read_error_restarts_from_epoch_witness :
  let e := failing_select_env [start_timestamp] in
  let table0 := [candle_row start_timestamp] in
  let ct := start_timestamp + 100000 in
  select_outcome e = DbRaises /\
  exists o s,
    import_historical_data 2 e table0 ct = Some (Returns o s) /\
    table s = [candle_row start_timestamp; candle_row start_timestamp] /\
    ~ NoDup (table s).
Proof.
  intros e table0 ct.
  assert (He : select_outcome e = DbRaises) by reflexivity.
  split; [ exact He | ].
  destruct (read_error_restarts_from_epoch e table0 He) as [_ [_ H]].
  assert (Hlt : start_timestamp < ct) by (unfold ct; lia).
  assert (Hapi : api e 1%nat (request start_timestamp None)
                 = HttpOk [candle start_timestamp]) by reflexivity.
  assert (Hne : [candle start_timestamp] <> []) by discriminate.
  assert (Hconv : map_result convert_kline_to_db_format [candle start_timestamp]
                  = Ok [candle_row start_timestamp]) by reflexivity.
  assert (Hins : insert_outcome e 1%nat = DbOk) by reflexivity.
  destruct (H ct _ _ Hlt Hapi Hne Hconv Hins) as [_ Hrun].
  eexists. eexists. split; [ reflexivity | ]. split; [ reflexivity | ].
  refine (proj2 (proj2 (Hrun 1%nat _ _ eq_refl)) (candle_row start_timestamp) _ _);
    left; reflexivity.
Defined.

(** ** An insert that is not confirmed *)




(** ** A request that fails *)




(** ** The cursor after a page *)

Lemma last_default_irrelevant {A : Type} (l : list A) (d d' : A) :
  l <> [] -> last l d = last l d'.
Proof.
  induction l as [ | a l IH]; intros Hne; [ contradiction Hne; reflexivity | ].
  destruct l as [ | b l]; [ reflexivity | ].
  change (last (b :: l) d = last (b :: l) d'). apply IH. discriminate.
Qed.

(** C5, as the code has it.  A cycle that goes on to the next one leaves the
    cursor at the open time of the last record of the raw page plus one
    millisecond; the translated batch has one row per raw record, so its last
    row carries the same open time. *)
Theorem cursor_after_page :
  forall (e : env) (ct orig : Z) (s s' : session),
    loop_body e ct orig s = (Continue, s') ->
    page_of e s <> [] /\
    exists z db_data,
      py_index (last (page_of e s) []) 0 = Ok (JInt z) /\
      start_time s' = z + 1 /\
      map_result convert_kline_to_db_format (page_of e s) = Ok db_data /\
      List.length db_data = List.length (page_of e s) /\
      forall d, OpenTime (last db_data d) = z.
Proof.
  intros e ct orig s s' H.
  destruct (page_of e s) as [ | k0 ks] eqn:Ep.
  - rewrite (loop_body_empty e ct orig s Ep) in H. discriminate H.
  - split; [ discriminate | ].
    assert (Hne : page_of e s <> []) by (rewrite Ep; discriminate).
    destruct (map_result convert_kline_to_db_format (page_of e s))
      as [db_data | ex] eqn:Ec.
    + rewrite (loop_body_converted e ct orig s db_data Hne Ec) in H.
      pose proof (next_start_time_of_converted _ _ (candle_row 0) Ec Hne) as Hn.
      pose proof (map_result_ok_last _ _ _ [] (candle_row 0) Ec Hne) as Hl.
      apply convert_ok_inv in Hl. destruct Hl as [Hl _].
      destruct (bulk_insert_data _ _ _) as [[ev_insert table'] [inserted | ex]];
        [ | discriminate H ].
      rewrite Hn in H. injection H as <-.
      exists (OpenTime (last db_data (candle_row 0))), db_data.
      rewrite <- Ep.
      split; [ exact Hl | ]. split; [ reflexivity | ].
      rewrite Ep in Ec.
      split; [ rewrite Ep; exact Ec | ].
      split; [ rewrite Ep; apply (map_result_ok_length _ _ _ Ec) | ].
      intros d. f_equal. apply last_default_irrelevant.
      apply (converted_not_nil _ _ Hne). rewrite Ep. exact Ec.
    + rewrite (loop_body_convert_raises e ct orig s ex Ec) in H. discriminate H.
Qed.

Lemma cursor_after_page_witness :
  let e := healthy_env [0; 60000; 120000] in
  let s := mk_session 0 0 0 [] [] in
  exists s',
    loop_body e 500000 0 s = (Continue, s') /\
    exists z db_data,
      py_index (last (page_of e s) []) 0 = Ok (JInt z) /\ start_time s' = z + 1 /\
      map_result convert_kline_to_db_format (page_of e s) = Ok db_data /\
      List.length db_data = List.length (page_of e s) /\
      forall d, OpenTime (last db_data d) = z.
Proof.
  intros e s. eexists. split; [ reflexivity | ].
  exact (proj2 (cursor_after_page e 500000 0 s _ eq_refl)).
Defined.

(** C5, refuted as stated: after a page of three one-minute candles that ends
    with the candle opening at 120000 ms, the cursor is 120001, one millisecond
    later, and not 180000, one interval later. *)
Lemma cursor_after_page_counterexample :
  let e := healthy_env [0; 60000; 120000] in
  let s := mk_session 0 0 0 [] [] in
  last (page_of e s) [] = candle 120000 /\
  fst (loop_body e 500000 0 s) = Continue /\
  table (snd (loop_body e 500000 0 s))
    = [candle_row 0; candle_row 60000; candle_row 120000] /\
  start_time (snd (loop_body e 500000 0 s)) = 120001 /\
  start_time (snd (loop_body e 500000 0 s)) <> 120000 + one_interval.
Proof.
  intros e s. repeat split. discriminate.
Qed.

(** ** A record that does not translate *)

Lemma convert_ok_shape (k : kline) (r : db_row) :
  convert_kline_to_db_format k = Ok r ->
  (7 <= List.length k)%nat /\
  (forall i s, (1 <= i <= 5)%nat -> nth_error k i <> Some (JBadStr s)).
Proof.
  intros H. unfold convert_kline_to_db_format, py_index in H.
  destruct k as [ | a0 [ | a1 [ | a2 [ | a3 [ | a4 [ | a5 [ | a6 rest]]]]]]];
    simpl in H; try discriminate H; repeat case_bind H; try discriminate H.
  split; [ simpl; lia | ].
  intros i s [Hi1 Hi5] Hn.
  destruct i as [ | [ | [ | [ | [ | [ | i]]]]]]; try lia;
    simpl in Hn; injection Hn as ->; discriminate.
Qed.

Lemma malformed_raises (k : kline) :
  missing_fields k \/ non_numeric_field k ->
  exists ex, convert_kline_to_db_format k = Raise ex.
Proof.
  intros Hm.
  destruct (convert_kline_to_db_format k) as [r | ex] eqn:E; [ | exists ex; reflexivity ].
  exfalso. destruct (convert_ok_shape k r E) as [Hlen Hnum].
  destruct Hm as [Hm | [i [s [Hi Hn]]]].
  - unfold missing_fields in Hm. lia.
  - exact (Hnum i s Hi Hn).
Qed.

(** C7, as the code has it.  A record that lacks fields, or whose price or
    volume is not a number, makes the translation raise.  The exception is not
    caught per record: the page is given up as a whole (nothing of it is
    inserted, the cursor and the record counter stay) and the loop is left
    through the exception, which ends the run; no record is skipped or
    counted. *)
Theorem malformed_record_aborts_run :
  forall (e : env) (ct orig : Z) (s : session) (k : kline),
    In k (page_of e s) ->
    missing_fields k \/ non_numeric_field k ->
    exists ex,
      map_result convert_kline_to_db_format (page_of e s) = Raise ex /\
      loop_body e ct orig s =
        (Raised ex,
         mk_session (start_time s) (total_records s) (S (batch_count s)) (table s)
           (out s ++ fetch_events e s)) /\
      (forall b, ~ In (CallExecutemany b) (fetch_events e s)) /\
      (forall fuel,
          start_time s < ct ->
          while_loop (S fuel) e ct orig s =
            Some (Threw ex,
                  mk_session (start_time s) (total_records s) (S (batch_count s))
                    (table s) (out s ++ fetch_events e s))).
Proof.
  intros e ct orig s k Hin Hm.
  destruct (malformed_raises k Hm) as [ex0 Hk].
  destruct (proj2 (map_result_raise_iff convert_kline_to_db_format (page_of e s))
              (ex_intro _ k (ex_intro _ ex0 (conj Hin Hk)))) as [ex Hex].
  exists ex. split; [ exact Hex | ].
  pose proof (loop_body_convert_raises e ct orig s ex Hex) as Hbody.
  split; [ exact Hbody | ]. split.
  - intros b. unfold fetch_events, fetch_klines.
    destruct (api e (S (batch_count s)) (request (start_time s) None)); simpl;
      intros H; repeat (destruct H as [H | H]; [ discriminate H | ]); exact H.
  - intros fuel Hlt. rewrite (while_loop_step fuel e ct orig s Hlt).
    rewrite Hbody. reflexivity.
Qed.

Lemma malformed_record_aborts_run_witness :
  let e := malformed_page_env (bad_price_record 60000) in
  let s := mk_session 0 0 0 [] [] in
  In (bad_price_record 60000) (page_of e s) /\
  (missing_fields (bad_price_record 60000)
   \/ non_numeric_field (bad_price_record 60000)) /\
  exists ex,
    loop_body e 200000 0 s =
      (Raised ex,
       mk_session (start_time s) (total_records s) (S (batch_count s)) (table s)
         (out s ++ fetch_events e s)).
Proof.
  intros e s.
  assert (Hin : In (bad_price_record 60000) (page_of e s))
    by (right; left; reflexivity).
  assert (Hm : missing_fields (bad_price_record 60000)
               \/ non_numeric_field (bad_price_record 60000)).
  { right. exists 1%nat, "n/a"%string. split; [ lia | reflexivity ]. }
  split; [ exact Hin | ]. split; [ exact Hm | ].
  destruct (malformed_record_aborts_run e 200000 0 s _ Hin Hm) as [ex [_ [Hbody _]]].
  exists ex. exact Hbody.
Defined.

(** C7, refuted as stated: a page made of a well-formed record followed by a
    record that lacks fields ends the run with an exception; the well-formed
    record is not inserted and nothing is counted.  The same happens with a
    record whose price is not a number. *)
Lemma malformed_record_counterexample :
  missing_fields (short_record 60000) /\
  (exists s,
      import_historical_data 5 (malformed_page_env (short_record 60000)) []
        (start_timestamp + 200000) = Some (Returns (Failed IndexError) s) /\
      table s = [] /\ total_records s = 0%nat /\ start_time s = start_timestamp /\
      In (MsgImportError 0) (out s) /\
      forall b, ~ In (CallExecutemany b) (out s)) /\
  non_numeric_field (bad_price_record 60000) /\
  (exists s,
      import_historical_data 5 (malformed_page_env (bad_price_record 60000)) []
        (start_timestamp + 200000) = Some (Returns (Failed ValueError) s) /\
      table s = [] /\ total_records s = 0%nat).
Proof.
  split; [ unfold missing_fields; simpl; lia | ]. split.
  - eexists. split; [ reflexivity | ]. simpl. repeat split.
    + tauto.
    + intros b H. repeat (destruct H as [H | H]; [ discriminate H | ]). exact H.
  - split.
    + exists 1%nat, "n/a"%string. split; [ lia | reflexivity ].
    + eexists. split; [ reflexivity | ]. split; reflexivity.
Qed.

(** ** The progress estimator *)

Lemma Qltb_lt (x y : Q) : Qltb x y = true <-> (x < y)%Q.
Proof.
  unfold Qltb. rewrite negb_true_iff. split.
  - intros H. apply Qnot_le_lt. intros Hle.
    apply Qle_bool_iff in Hle. rewrite Hle in H. discriminate H.
  - intros H. destruct (Qle_bool y x) eqn:E; [ | reflexivity ].
    apply Qle_bool_iff in E. exfalso. exact (Qlt_not_le _ _ H E).
Qed.

Lemma Qltb_ge (x y : Q) : Qltb x y = false <-> (y <= x)%Q.
Proof.
  unfold Qltb. rewrite negb_false_iff. apply Qle_bool_iff.
Qed.

Lemma coverage_fraction (c s e : Z) :
  s < e ->
  (coverage c s e == inject_Z (c - s) / inject_Z (e - s))%Q.
Proof.
  intros H. unfold coverage, progress_percent.
  assert (E : (0 <? e - s) = true) by (apply Z.ltb_lt; lia).
  rewrite E.
  assert (Hnz : ~ (inject_Z (e - s) == 0)%Q).
  { intros Hq. change 0%Q with (inject_Z 0) in Hq. apply (proj1 (inject_Z_injective _ _)) in Hq. lia. }
  field. exact Hnz.
Qed.

Lemma coverage_degenerate (c s e : Z) :
  e <= s -> (coverage c s e == 1)%Q.
Proof.
  intros H. unfold coverage, progress_percent.
  assert (E : (0 <? e - s) = false) by (apply Z.ltb_ge; lia).
  rewrite E. reflexivity.
Qed.

Lemma fraction_bounds (a b : Z) :
  0 < b ->
  ((0 <= a -> (0 <= inject_Z a / inject_Z b)%Q) /\
   (a <= b -> (inject_Z a / inject_Z b <= 1)%Q) /\
   (a < 0 -> (inject_Z a / inject_Z b < 0)%Q) /\
   (b < a -> (1 < inject_Z a / inject_Z b)%Q)).
Proof.
  intros Hb.
  assert (Hq : (0 < inject_Z b)%Q) by (change 0%Q with (inject_Z 0); rewrite <- Zlt_Qlt; exact Hb).
  repeat split; intros H.
  - apply Qle_shift_div_l; [ exact Hq | ].
    rewrite Qmult_0_l. change 0%Q with (inject_Z 0). rewrite <- Zle_Qle. exact H.
  - apply Qle_shift_div_r; [ exact Hq | ].
    rewrite Qmult_1_l. rewrite <- Zle_Qle. exact H.
  - apply Qlt_shift_div_r; [ exact Hq | ].
    rewrite Qmult_0_l. change 0%Q with (inject_Z 0). rewrite <- Zlt_Qlt. exact H.
  - apply Qlt_shift_div_l; [ exact Hq | ].
    rewrite Qmult_1_l. rewrite <- Zlt_Qlt. exact H.
Qed.

(** C8, as the code has it.  Over a positive time span the coverage is the
    plain fraction (cursor - start) / (target - start), with no clamp: it lies
    between 0 and 1, where it agrees with the clamped formula, when the cursor
    lies between start and target, it exceeds 1 when the cursor is past the
    target and is negative when the cursor is before the start.  When the time
    span is zero or negative the coverage is 1. *)
Theorem coverage_is_unclamped_fraction :
  forall (c s e : Z),
    (s < e -> (coverage c s e == inject_Z (c - s) / inject_Z (e - s))%Q) /\
    (e <= s -> (coverage c s e == 1)%Q) /\
    (s < e -> s <= c <= e ->
     (0 <= coverage c s e)%Q /\ (coverage c s e <= 1)%Q /\
     (coverage c s e == clamped_coverage c s e)%Q) /\
    (s < e -> e < c -> (1 < coverage c s e)%Q) /\
    (s < e -> c < s -> (coverage c s e < 0)%Q).
Proof.
  intros c s e.
  split; [ apply coverage_fraction | ].
  split; [ apply coverage_degenerate | ].
  split; [ | split ].
  - intros Hse [Hsc Hce].
    pose proof (coverage_fraction c s e Hse) as Hc.
    destruct (fraction_bounds (c - s) (e - s)) as [H0 [H1 _]]; [ lia | ].
    specialize (H0 ltac:(lia)). specialize (H1 ltac:(lia)).
    split; [ rewrite Hc; exact H0 | ]. split; [ rewrite Hc; exact H1 | ].
    rewrite Hc. unfold clamped_coverage, clamp.
    assert (E : (e - s =? 0) = false) by (apply Z.eqb_neq; lia).
    rewrite E.
    rewrite (proj2 (Qltb_ge _ _) H0). rewrite (proj2 (Qltb_ge _ _) H1).
    reflexivity.
  - intros Hse Hec. rewrite (coverage_fraction c s e Hse).
    destruct (fraction_bounds (c - s) (e - s)) as [_ [_ [_ H]]]; [ lia | ].
    apply H. lia.
  - intros Hse Hcs. rewrite (coverage_fraction c s e Hse).
    destruct (fraction_bounds (c - s) (e - s)) as [_ [_ [H _]]]; [ lia | ].
    apply H. lia.
Qed.

Lemma coverage_is_unclamped_fraction_witness :
  0 < 100 /\ 0 <= 25 <= 100 /\
  (coverage 25 0 100 == inject_Z (25 - 0) / inject_Z (100 - 0))%Q /\
  (0 <= coverage 25 0 100)%Q /\ (coverage 25 0 100 <= 1)%Q /\
  (coverage 25 0 100 == clamped_coverage 25 0 100)%Q /\
  100 < 200 /\ (1 < coverage 200 0 100)%Q.
Proof.
  assert (H1 : 0 < 100) by lia.
  assert (H2 : 0 <= 25 <= 100) by lia.
  assert (H3 : 100 < 200) by lia.
  destruct (coverage_is_unclamped_fraction 25 0 100) as [Ha [_ [Hb _]]].
  destruct (coverage_is_unclamped_fraction 200 0 100) as [_ [_ [_ [Hc _]]]].
  destruct (Hb H1 H2) as [Hb1 [Hb2 Hb3]].
  exact (conj H1 (conj H2 (conj (Ha H1) (conj Hb1 (conj Hb2 (conj Hb3
           (conj H3 (Hc H1 H3)))))))).
Defined.

(** C8, refuted as stated: with the cursor past the target the coverage is 2,
    above 1 and different from the clamped value; with the cursor before the
    start it is negative; with a negative time span it is 1 where the clamped
    formula gives one half.  A cursor past the target is what the estimator
    receives when the last record of a page opens after the target. *)
Lemma coverage_counterexample :
  (coverage 200 0 100 == 2)%Q /\
  (1 < coverage 200 0 100)%Q /\
  ~ (coverage 200 0 100 == clamped_coverage 200 0 100)%Q /\
  (coverage (-100) 0 100 < 0)%Q /\
  (coverage 50 100 0 == 1)%Q /\ (clamped_coverage 50 100 0 == 1 # 2)%Q /\
  In (MsgProgressReport 60001 0 30000 1 2)
     (out (snd (loop_body (healthy_env [0; 60000]) 30000 0 (mk_session 0 0 0 [] [])))) /\
  (1 < coverage 60001 0 30000)%Q.
Proof.
  repeat split; try (vm_compute; reflexivity).
  - intros H. vm_compute in H. discriminate H.
  - simpl. tauto.
Qed.

(** C9, as the code has it.  The estimate is made exactly when the progress is
    positive: the remaining time is then the elapsed time divided by the
    coverage, minus the elapsed time, and the ETA is the present instant plus
    that; otherwise the ETA is unknown.  No clamp is applied: the remaining
    time is not negative when the coverage is at most 1 and the elapsed time is
    not negative, and it is negative when the coverage exceeds 1 and time has
    elapsed. *)
Theorem eta_and_remaining_time :
  forall (progress elapsed now : Q),
    ((0 < progress)%Q ->
     remaining_seconds progress elapsed
       = Some (elapsed / (progress / 100) - elapsed)%Q /\
     eta now progress elapsed
       = Some (now + (elapsed / (progress / 100) - elapsed))%Q) /\
    ((progress <= 0)%Q ->
     remaining_seconds progress elapsed = None /\ eta now progress elapsed = None) /\
    ((0 < progress)%Q -> (progress <= 100)%Q -> (0 <= elapsed)%Q ->
     (0 <= elapsed / (progress / 100) - elapsed)%Q) /\
    ((100 < progress)%Q -> (0 < elapsed)%Q ->
     (elapsed / (progress / 100) - elapsed < 0)%Q).
Proof.
  intros progress elapsed now.
  assert (Hcov : (0 < progress)%Q -> (0 < progress / 100)%Q).
  { intros Hp. apply Qlt_shift_div_l; [ reflexivity | ]. rewrite Qmult_0_l. exact Hp. }
  split; [ | split; [ | split ] ].
  - intros Hp. unfold eta, remaining_seconds.
    rewrite (proj2 (Qltb_lt _ _) Hp). split; reflexivity.
  - intros Hp. unfold eta, remaining_seconds.
    rewrite (proj2 (Qltb_ge _ _) Hp). split; reflexivity.
  - intros Hp Hle He. specialize (Hcov Hp).
    rewrite <- (Qplus_opp_r elapsed).
    apply Qplus_le_l.
    apply Qle_shift_div_l; [ exact Hcov | ].
    rewrite <- (Qmult_1_r elapsed) at 2.
    rewrite !(Qmult_comm elapsed).
    apply Qmult_le_compat_r; [ | exact He ].
    apply Qle_shift_div_r; [ reflexivity | ]. rewrite Qmult_1_l. exact Hle.
  - intros Hp He.
    assert (Hp0 : (0 < progress)%Q) by (eapply Qlt_trans; [ | exact Hp ]; reflexivity).
    specialize (Hcov Hp0).
    rewrite <- (Qplus_opp_r elapsed).
    apply Qplus_lt_l.
    apply Qlt_shift_div_r; [ exact Hcov | ].
    rewrite <- (Qmult_1_r elapsed) at 1.
    rewrite !(Qmult_comm elapsed).
    apply Qmult_lt_compat_r; [ exact He | ].
    apply Qlt_shift_div_l; [ reflexivity | ]. rewrite Qmult_1_l. exact Hp.
Qed.

Lemma eta_and_remaining_time_witness :
  (0 < 25)%Q /\ (25 <= 100)%Q /\ (0 <= 120)%Q /\
  remaining_seconds 25 120 = Some (120 / (25 / 100) - 120)%Q /\
  (0 <= 120 / (25 / 100) - 120)%Q /\
  (0 <= 0)%Q /\ remaining_seconds 0 120 = None /\
  (100 < 200)%Q /\ (0 < 100)%Q /\ (100 / (200 / 100) - 100 < 0)%Q.
Proof.
  assert (H1 : (0 < 25)%Q) by reflexivity.
  assert (H2 : (25 <= 100)%Q) by discriminate.
  assert (H3 : (0 <= 120)%Q) by discriminate.
  assert (H4 : (0 <= 0)%Q) by discriminate.
  assert (H5 : (100 < 200)%Q) by reflexivity.
  assert (H6 : (0 < 100)%Q) by reflexivity.
  destruct (eta_and_remaining_time 25 120 0) as [Ha [_ [Hb _]]].
  destruct (eta_and_remaining_time 0 120 0) as [_ [Hc _]].
  destruct (eta_and_remaining_time 200 100 0) as [_ [_ [_ Hd]]].
  exact (conj H1 (conj H2 (conj H3 (conj (proj1 (Ha H1)) (conj (Hb H1 H2 H3)
           (conj H4 (conj (proj1 (Hc H4)) (conj H5 (conj H6 (Hd H5 H6)))))))))).
Defined.

(** C9, refuted as stated: at a progress of 200 percent after 100 seconds the
    remaining time is -50 seconds; nothing clamps it to zero. *)
Lemma remaining_time_counterexample :
  (progress_percent 200 0 100 == 200)%Q /\
  exists r,
    remaining_seconds (progress_percent 200 0 100) 100 = Some r /\
    (r == -50)%Q /\ (r < 0)%Q.
Proof.
  split; [ vm_compute; reflexivity | ].
  eexists. split; [ reflexivity | ]. split; vm_compute; reflexivity.
Qed.

(** ** Running the importer twice *)

Lemma next_cursor_above (off : Z -> Z) (tbl : list db_row) (r : db_row) :
  (forall t, off t <= 0) ->
  In r tbl -> key_match r = true -> OpenTime r + 60000 <= next_cursor off tbl.
Proof.
  intros Hoff Hr Hk. unfold next_cursor, timestamp_ms.
  destruct (select_max_cases tbl) as [[m [-> [_ Hmax]]] | [_ Hno]].
  - specialize (Hmax r Hr Hk). specialize (Hoff m). lia.
  - rewrite (Hno r Hr) in Hk. discriminate Hk.
Qed.

Lemma next_cursor_ext (off off' : Z -> Z) (tbl : list db_row) :
  (forall t, off' t = off t) -> next_cursor off' tbl = next_cursor off tbl.
Proof.
  intros H. unfold next_cursor, timestamp_ms.
  destruct (select_max_open_time tbl); [ rewrite H | ]; reflexivity.
Qed.

Lemma last_in {A : Type} (l : list A) (d : A) : l <> [] -> In (last l d) l.
Proof.
  induction l as [ | a l IH]; intros Hne; [ contradiction Hne; reflexivity | ].
  destruct l as [ | b l]; [ left; reflexivity | ].
  right. change (In (last (b :: l) d) (b :: l)). apply IH. discriminate.
Qed.

Section TwoRuns.

Variable feed : Z -> list kline.
Variable now1 : Z.
Variable e : env.

Hypothesis feed_before : upstream_before feed now1.
Hypothesis feed_final : exhaustion_is_final feed.
Hypothesis e_serves : serves e feed.

Lemma served_page (s : session) : page_of e s = feed (start_time s).
Proof.
  unfold page_of, fetch_klines. rewrite e_serves. reflexivity.
Qed.

Lemma served_page_converts (s : session) :
  exists db_data,
    map_result convert_kline_to_db_format (page_of e s) = Ok db_data.
Proof.
  destruct (map_result convert_kline_to_db_format (page_of e s))
    as [db_data | ex] eqn:Ec; [ exists db_data; reflexivity | ].
  exfalso.
  destruct (proj1 (map_result_raise_iff _ _) (ex_intro _ ex Ec)) as [k [ex' [Hin Hk]]].
  rewrite served_page in Hin.
  destruct (feed_before _ _ Hin) as [r [Hr _]]. rewrite Hr in Hk. discriminate Hk.
Qed.

Lemma nothing_served_at_or_after_now1 (c : Z) : now1 <= c -> feed c = [].
Proof.
  intros Hc. destruct (feed c) as [ | k ks] eqn:Ef; [ reflexivity | ].
  destruct (feed_before c k) as [r [_ Hr]]; [ rewrite Ef; left; reflexivity | ].
  lia.
Qed.

Hypothesis e_inserts : forall n, insert_outcome e n = DbOk.
Hypothesis e_not_east : host_not_east_of_utc e.

(** A cycle on a non-empty page commits it, moves the cursor forward and
    keeps it at or before the cursor that the table determines. *)
Lemma served_cycle (orig : Z) (s : session) :
  feed (start_time s) <> [] ->
  exists s',
    loop_body e now1 orig s = (Continue, s') /\
    start_time s < start_time s' /\
    start_time s' <= next_cursor (local_offset e) (table s').
Proof.
  intros Hne. rewrite <- served_page in Hne.
  destruct (served_page_converts s) as [db_data Hconv].
  pose proof (loop_body_committed e now1 orig s db_data (candle_row 0)
                Hne Hconv (e_inserts _)) as Hbody.
  simpl in Hbody. eexists. split; [ exact Hbody | ].
  cbn [start_time table].
  pose proof (map_result_ok_last _ _ _ [] (candle_row 0) Hconv Hne) as Hlast.
  pose proof (last_in (page_of e s) [] Hne) as Hin.
  assert (Hin' : In (last (page_of e s) []) (feed (start_time s)))
    by (rewrite <- served_page; exact Hin).
  destruct (feed_before _ _ Hin') as [r [Hr [Hge _]]].
  pose proof (eq_trans (eq_sym Hr) Hlast) as Hlast'.
  injection Hlast' as Hlast'. rewrite <- Hlast'.
  split; [ lia | ].
  assert (Hk : key_match r = true) by (apply (convert_ok_inv _ _ Hr)).
  assert (Hmem : In r (table s ++ db_data)).
  { apply in_or_app. right. rewrite Hlast'. apply last_in.
    apply (converted_not_nil _ _ Hne Hconv). }
  pose proof (next_cursor_above _ _ _ e_not_east Hmem Hk). lia.
Qed.

(** The loop ends, within as many passes as there are milliseconds between
    the cursor and the target. *)
Lemma served_loop_terminates (orig : Z) (fuel : nat) :
  forall s,
    (Z.to_nat (now1 - start_time s) <= fuel)%nat ->
    exists x s', while_loop fuel e now1 orig s = Some (x, s').
Proof.
  induction fuel as [ | fuel IH]; intros s Hfuel.
  - exists CondFalse, s. apply while_loop_done. lia.
  - destruct (Z.lt_ge_cases (start_time s) now1) as [Hlt | Hge].
    + rewrite (while_loop_step fuel e now1 orig s Hlt).
      destruct (feed (start_time s)) as [ | k ks] eqn:Ef.
      * rewrite (loop_body_empty e now1 orig s); [ eauto | ].
        rewrite served_page. exact Ef.
      * destruct (served_cycle orig s) as [s' [Hbody [Hadv _]]];
          [ rewrite Ef; discriminate | ].
        rewrite Hbody. apply IH. lia.
    + exists CondFalse, s. apply while_loop_done. exact Hge.
Qed.

(** However the loop ends, nothing is left upstream at or after the cursor
    that the table then determines. *)
Lemma served_loop_exhausts (orig : Z) (fuel : nat) :
  forall s x s',
    while_loop fuel e now1 orig s = Some (x, s') ->
    start_time s <= next_cursor (local_offset e) (table s) ->
    feed (next_cursor (local_offset e) (table s')) = [].
Proof.
  induction fuel as [ | fuel IH]; intros s x s' H Hinv.
  - simpl in H. destruct (start_time s <? now1) eqn:E; [ discriminate H | ].
    injection H as <- <-. apply Z.ltb_ge in E.
    apply nothing_served_at_or_after_now1. lia.
  - destruct (Z.lt_ge_cases (start_time s) now1) as [Hlt | Hge].
    + rewrite (while_loop_step fuel e now1 orig s Hlt) in H.
      destruct (feed (start_time s)) as [ | k ks] eqn:Ef.
      * rewrite (loop_body_empty e now1 orig s) in H
          by (rewrite served_page; exact Ef).
        injection H as <- <-. cbn [table].
        apply (feed_final (start_time s)); assumption.
      * destruct (served_cycle orig s) as [s1 [Hbody [_ Hinv1]]];
          [ rewrite Ef; discriminate | ].
        rewrite Hbody in H. exact (IH s1 x s' H Hinv1).
    + rewrite (while_loop_done (S fuel) e now1 orig s Hge) in H.
      injection H as <- <-. apply nothing_served_at_or_after_now1. lia.
Qed.

End TwoRuns.

Lemma get_latest_when_ok (e : env) (tbl : list db_row) :
  select_outcome e = DbOk ->
  exists ev,
    get_latest_timestamp (select_outcome e) (local_offset e) tbl
      = (ev, Ok (next_cursor (local_offset e) tbl)) /\
    forall b, ~ In (CallExecutemany b) ev.
Proof.
  intros ->. unfold get_latest_timestamp, next_cursor.
  destruct (select_max_open_time tbl); eexists; (split; [ reflexivity | ]);
    intros b H; repeat (destruct H as [H | H]; [ discriminate H | ]); exact H.
Qed.

Lemma no_insert_in_fetch (e : env) (s : session) (b : list db_row) :
  ~ In (CallExecutemany b) (fetch_events e s).
Proof.
  unfold fetch_events, fetch_klines.
  destruct (api e (S (batch_count s)) (request (start_time s) None)); simpl;
    intros H; repeat (destruct H as [H | H]; [ discriminate H | ]); exact H.
Qed.

(** A session that finds nothing upstream at its starting cursor inserts
    nothing. *)
Lemma run_on_exhausted_upstream (fuel : nat) (e : env) (feed : Z -> list kline)
  (tbl : list db_row) (now : Z) :
  serves e feed ->
  select_outcome e = DbOk ->
  feed (next_cursor (local_offset e) tbl) = [] ->
  exists o s,
    import_historical_data (S fuel) e tbl now = Some (Returns o s) /\
    total_records s = 0%nat /\ table s = tbl /\
    forall b, ~ In (CallExecutemany b) (out s).
Proof.
  intros Hserves Hsel Hempty.
  destruct (get_latest_when_ok e tbl Hsel) as [ev [Eg Hev]].
  rewrite (import_unfold (S fuel) e tbl now ev _ Eg).
  destruct (now <=? next_cursor (local_offset e) tbl) eqn:Ecmp.
  - eexists. eexists. split; [ reflexivity | ]. cbn [total_records table out].
    split; [ reflexivity | ]. split; [ reflexivity | ].
    intros b H. apply in_snoc_other in H; [ | discriminate ]. exact (Hev b H).
  - apply Z.leb_gt in Ecmp.
    set (s0 := entry_session ev (next_cursor (local_offset e) tbl) tbl now).
    assert (Hp : page_of e s0 = []).
    { rewrite (served_page feed e Hserves). exact Hempty. }
    rewrite (while_loop_step fuel e now (next_cursor (local_offset e) tbl) s0 Ecmp).
    rewrite (loop_body_empty e now (next_cursor (local_offset e) tbl) s0 Hp).
    eexists. eexists. split; [ reflexivity | ]. cbn [total_records table out].
    split; [ reflexivity | ]. split; [ reflexivity | ].
    intros b H. apply in_snoc_other in H; [ | discriminate ].
    unfold s0, entry_session in H. cbn [out] in H.
    apply in_app_or in H. destruct H as [H | H].
    + apply in_snoc_other in H; [ | discriminate ]. exact (Hev b H).
    + apply in_snoc_other in H; [ | discriminate ].
      exact (no_insert_in_fetch e _ b H).
Qed.


Lemma in_firstn {A : Type} (n : nat) (l : list A) (x : A) :
  In x (firstn n l) -> In x l.
Proof.
  revert l. induction n as [ | n IH]; intros l H; [ destruct H | ].
  destruct l as [ | a l]; [ destruct H | ].
  destruct H as [<- | H]; [ left; reflexivity | right; apply IH; exact H ].
Qed.

Lemma healthy_env_serves (ts : list Z) : serves (healthy_env ts) (pages_of ts).
Proof.
  intros n s. reflexivity.
Qed.

Lemma pages_of_before (ts : list Z) (now : Z) :
  (forall t, In t ts -> t < now) -> upstream_before (pages_of ts) now.
Proof.
  intros Hts s k Hk. unfold pages_of in Hk. apply in_firstn in Hk.
  apply in_map_iff in Hk. destruct Hk as [t [<- Ht]].
  apply filter_In in Ht. destruct Ht as [Ht Hs]. apply Z.leb_le in Hs.
  exists (candle_row t). split; [ reflexivity | ].
  simpl. split; [ exact Hs | apply Hts; exact Ht ].
Qed.

Lemma pages_of_final (ts : list Z) : exhaustion_is_final (pages_of ts).
Proof.
  intros s s' Hle. unfold pages_of.
  change (Z.to_nat limit) with 1000%nat.
  induction ts as [ | t ts IH]; [ reflexivity | ].
  cbn [filter]. destruct (s <=? t) eqn:E; [ discriminate | ].
  intros H. apply Z.leb_gt in E.
  assert (E' : (s' <=? t) = false) by (apply Z.leb_gt; lia).
  rewrite E'. apply IH. exact H.
Qed.


Lemma offset_env_serves (offset : Z) (ts : list Z) :
  serves (offset_env offset ts) (pages_of ts).
Proof.
  intros n s. reflexivity.
Qed.


(** * Further properties of the importer *)

(** ** A rule for the loop *)

(** What holds at the head of every pass and is carried over by the passes that
    continue, and what every way of leaving the loop establishes. *)
Lemma while_loop_rule (I Q : session -> Prop) (e : env) (ct orig : Z) :
  (forall s, I s -> start_time s < ct ->
     match loop_body e ct orig s with
     | (Continue, s') => I s'
     | (_, s') => Q s'
     end) ->
  (forall s, I s -> ct <= start_time s -> Q s) ->
  forall fuel s x s',
    while_loop fuel e ct orig s = Some (x, s') -> I s -> Q s'.
Proof.
  intros Hstep Hexit. induction fuel as [ | fuel IH]; intros s x s' H Hs.
  - simpl in H. destruct (start_time s <? ct) eqn:E; [ discriminate H | ].
    injection H as _ <-. apply Hexit; [ exact Hs | apply Z.ltb_ge; exact E ].
  - destruct (Z.lt_ge_cases (start_time s) ct) as [Hlt | Hge].
    + rewrite (while_loop_step fuel e ct orig s Hlt) in H.
      specialize (Hstep s Hs Hlt).
      destruct (loop_body e ct orig s) as [[ | | ex] s1].
      * exact (IH s1 x s' H Hstep).
      * injection H as _ <-. exact Hstep.
      * injection H as _ <-. exact Hstep.
    + rewrite (while_loop_done (S fuel) e ct orig s Hge) in H.
      injection H as _ <-. apply Hexit; assumption.
Qed.

(** The state a session returns, stripped of its last printed line, is a state
    the loop was left in or the state of the early return. *)
Lemma import_returns_inv (fuel : nat) (e : env) (table0 : list db_row) (ct : Z)
  (o : outcome) (s : session) :
  import_historical_data fuel e table0 ct = Some (Returns o s) ->
  exists ev start,
    get_latest_timestamp (select_outcome e) (local_offset e) table0 = (ev, Ok start) /\
    ((o = UpToDate /\ ct <= start /\
      s = mk_session start 0 0 table0 (ev ++ [MsgAlreadyUpToDate])) \/
     (start < ct /\
      exists x s1 line,
        while_loop fuel e ct start (entry_session ev start table0 ct) = Some (x, s1) /\
        s = mk_session (start_time s1) (total_records s1) (batch_count s1)
              (table s1) (out s1 ++ [line]) /\
        ((exists ex, x = Threw ex /\ o = Failed ex /\
                     line = MsgImportError (total_records s1)) \/
         ((x = CondFalse \/ x = Broke) /\ o = Completed /\
          line = MsgImportDone (total_records s1) (batch_count s1))))).
Proof.
  intros H.
  destruct (get_latest_timestamp (select_outcome e) (local_offset e) table0) as [ev [start | ex]] eqn:Eg.
  - exists ev, start. split; [ reflexivity | ].
    rewrite (import_unfold fuel e table0 ct ev start Eg) in H.
    destruct (ct <=? start) eqn:Ecmp.
    + left. injection H as <- <-. apply Z.leb_le in Ecmp. auto.
    + right. apply Z.leb_gt in Ecmp. split; [ exact Ecmp | ].
      destruct (while_loop fuel e ct start (entry_session ev start table0 ct))
        as [[x s1] | ]; [ | discriminate H ].
      destruct x as [ | | ex]; injection H as <- <-.
      * exists CondFalse, s1, (MsgImportDone (total_records s1) (batch_count s1)).
        split; [ reflexivity | ]. split; [ reflexivity | ]. right. auto.
      * exists Broke, s1, (MsgImportDone (total_records s1) (batch_count s1)).
        split; [ reflexivity | ]. split; [ reflexivity | ]. right. auto.
      * exists (Threw ex), s1, (MsgImportError (total_records s1)).
        split; [ reflexivity | ]. split; [ reflexivity | ]. left. eauto.
  - unfold import_historical_data in H. rewrite Eg in H. discriminate H.
Qed.

(** The shapes of one pass, in one statement. *)
Lemma loop_body_cases (e : env) (ct orig : Z) (s : session) :
  let bc := S (batch_count s) in
  (page_of e s = [] /\
   loop_body e ct orig s =
     (Break, mk_session (start_time s) (total_records s) bc (table s)
               (out s ++ fetch_events e s ++ [MsgNoMoreData]))) \/
  (exists ex,
     page_of e s <> [] /\
     map_result convert_kline_to_db_format (page_of e s) = Raise ex /\
     loop_body e ct orig s =
       (Raised ex, mk_session (start_time s) (total_records s) bc (table s)
                     (out s ++ fetch_events e s))) \/
  (exists db_data,
     page_of e s <> [] /\ db_data <> [] /\
     map_result convert_kline_to_db_format (page_of e s) = Ok db_data /\
     ((insert_outcome e bc = DbConnectFails /\
       loop_body e ct orig s =
         (Raised DatabaseError,
          mk_session (start_time s) (total_records s) bc (table s)
            (out s ++ fetch_events e s ++ []))) \/
      (insert_outcome e bc = DbOk /\
       loop_body e ct orig s =
         (Continue,
          let cursor := OpenTime (last db_data (candle_row 0)) + 1 in
          let total := (total_records s + List.length db_data)%nat in
          mk_session cursor total bc (table s ++ db_data)
            (out s ++ fetch_events e s ++ [CallExecutemany db_data]
               ++ report bc cursor orig ct total ++ [Sleep]
               ++ checkpoint bc cursor total))) \/
      (insert_outcome e bc = DbRaises /\
       loop_body e ct orig s =
         (Continue,
          let cursor := OpenTime (last db_data (candle_row 0)) + 1 in
          let total := (total_records s + 0)%nat in
          mk_session cursor total bc (table s)
            (out s ++ fetch_events e s ++ [CallExecutemany db_data; MsgInsertError]
               ++ report bc cursor orig ct total ++ [Sleep]
               ++ checkpoint bc cursor total))))).
Proof.
  simpl.
  destruct (page_of e s) as [ | k0 ks] eqn:Ep.
  - left. split; [ reflexivity | ]. apply loop_body_empty. exact Ep.
  - right. rewrite <- Ep.
    assert (Hne : page_of e s <> []) by (rewrite Ep; discriminate).
    destruct (map_result convert_kline_to_db_format (page_of e s))
      as [db_data | ex] eqn:Ec.
    + right. exists db_data.
      pose proof (converted_not_nil _ _ Hne Ec) as Hd.
      split; [ exact Hne | ]. split; [ exact Hd | ]. split; [ reflexivity | ].
      destruct (insert_outcome e (S (batch_count s))) eqn:Ei.
      * right. left. split; [ reflexivity | ].
        exact (loop_body_committed e ct orig s db_data (candle_row 0) Hne Ec Ei).
      * right. right. split; [ reflexivity | ].
        exact (loop_body_rolled_back e ct orig s db_data (candle_row 0) Hne Ec Ei).
      * left. split; [ reflexivity | ].
        rewrite (loop_body_converted e ct orig s db_data Hne Ec).
        unfold bulk_insert_data. rewrite Ei.
        destruct db_data; [ contradiction Hd; reflexivity | reflexivity ].
    + left. exists ex. split; [ exact Hne | ]. split; [ reflexivity | ].
      apply loop_body_convert_raises. exact Ec.
Qed.

(** ** What a session adds to the table *)

Lemma converted_rows_key (klines : list kline) (db_data : list db_row) :
  map_result convert_kline_to_db_format klines = Ok db_data ->
  Forall (fun r => key_match r = true) db_data.
Proof.
  revert db_data. induction klines as [ | k klines IH]; simpl; intros db_data H.
  - injection H as <-. constructor.
  - destruct (convert_kline_to_db_format k) as [r | ] eqn:Ek; simpl in H;
      [ | discriminate H ].
    destruct (map_result convert_kline_to_db_format klines) as [rs | ];
      simpl in H; [ | discriminate H ].
    injection H as <-. constructor.
    + apply (convert_ok_inv _ _ Ek).
    + apply IH. reflexivity.
Qed.

(** X1. A session only appends to the table: what it returns is the table it
    found followed by the rows it added; the record counter it prints is the
    number of those rows, and every one of them carries the key
    ('BTC', '1m'). *)
Theorem session_appends_counted_rows :
  forall (fuel : nat) (e : env) (table0 : list db_row) (ct : Z)
         (o : outcome) (s : session),
    import_historical_data fuel e table0 ct = Some (Returns o s) ->
    exists added,
      table s = table0 ++ added /\
      List.length added = total_records s /\
      Forall (fun r => key_match r = true) added.
Proof.
  intros fuel e table0 ct o s H.
  set (P := fun s : session =>
              exists added,
                table s = table0 ++ added /\
                List.length added = total_records s /\
                Forall (fun r => key_match r = true) added).
  destruct (import_returns_inv fuel e table0 ct o s H)
    as [ev [start [_ [[_ [_ ->]] | [_ [x [s1 [line [Hw [-> _]]]]]]]]]].
  - exists []. simpl. rewrite app_nil_r. repeat split. constructor.
  - change (P s1).
    apply (while_loop_rule P P e ct start) with (fuel := fuel) (x := x)
      (s := entry_session ev start table0 ct); [ | auto | exact Hw | ].
    + intros s [added [Ht [Hl Hk]]] _.
      destruct (loop_body_cases e ct start s)
        as [[_ ->] | [[ex [_ [_ ->]]] | [db_data [_ [_ [Hc [[_ ->] | [[_ ->] | [_ ->]]]]]]]]];
        unfold P; cbn [table total_records].
      * exists added. auto.
      * exists added. auto.
      * exists added. auto.
      * exists (added ++ db_data). rewrite Ht, app_assoc, length_app, Hl.
        repeat split. apply Forall_app. split; [ exact Hk | ].
        apply (converted_rows_key _ _ Hc).
      * exists added. rewrite Nat.add_0_r. auto.
    + exists []. simpl. rewrite app_nil_r. repeat split. constructor.
Qed.

Lemma session_appends_counted_rows_witness :
  exists o s added,
    import_historical_data 5 (healthy_env [0; 60000]) [candle_row (-60000)] 100000
      = Some (Returns o s) /\
    table s = [candle_row (-60000)] ++ added /\
    List.length added = total_records s.
Proof.
  eexists. eexists.
  destruct (session_appends_counted_rows 5 (healthy_env [0; 60000])
              [candle_row (-60000)] 100000 _ _ eq_refl) as [added [Ht [Hl _]]].
  exists added. split; [ reflexivity | ]. split; [ exact Ht | exact Hl ].
Defined.

(** ** Requests, batches and pauses *)

Lemma count_requests_app (l1 l2 : list event) :
  count_requests (l1 ++ l2) = (count_requests l1 + count_requests l2)%nat.
Proof.
  induction l1 as [ | ev l1 IH]; simpl; [ reflexivity | ].
  destruct ev; simpl; rewrite IH; reflexivity.
Qed.

Lemma pace_app (b : bool) (l1 l2 : list event) :
  pace b (l1 ++ l2) =
    match pace b l1 with
    | Some b' => pace b' l2
    | None => None
    end.
Proof.
  revert b. induction l1 as [ | ev l1 IH]; intros b; simpl; [ reflexivity | ].
  destruct ev; try apply IH. destruct b; [ apply IH | reflexivity ].
Qed.

Lemma fetch_events_shape (e : env) (s : session) :
  count_requests (fetch_events e s) = 1%nat /\
  pace true (fetch_events e s) = Some false.
Proof.
  unfold fetch_events, fetch_klines.
  destruct (api e (S (batch_count s)) (request (start_time s) None));
    split; reflexivity.
Qed.

Lemma report_shape (bc : nat) (c orig ct : Z) (total : nat) (b : bool) :
  pace b (report bc c orig ct total ++ [Sleep] ++ checkpoint bc c total)
    = Some true.
Proof.
  unfold report, checkpoint.
  destruct ((bc <=? 5)%nat || (bc mod 20 =? 0)%nat);
    destruct (bc mod 5 =? 0)%nat; destruct (bc mod 100 =? 0)%nat;
    reflexivity.
Qed.

Lemma report_no_request (bc : nat) (c orig ct : Z) (total : nat) :
  count_requests (report bc c orig ct total) = 0%nat.
Proof.
  unfold report.
  destruct ((bc <=? 5)%nat || (bc mod 20 =? 0)%nat);
    destruct (bc mod 5 =? 0)%nat; reflexivity.
Qed.

Lemma checkpoint_no_request (bc : nat) (c : Z) (total : nat) :
  count_requests (checkpoint bc c total) = 0%nat.
Proof.
  unfold checkpoint. destruct (bc mod 100 =? 0)%nat; reflexivity.
Qed.

Lemma get_latest_shape (o : db_outcome) (off : Z -> Z) (tbl : list db_row)
  (b : bool) :
  count_requests (fst (get_latest_timestamp o off tbl)) = 0%nat /\
  pace b (fst (get_latest_timestamp o off tbl)) = Some b.
Proof.
  unfold get_latest_timestamp.
  destruct o; [ destruct (select_max_open_time tbl) | | ]; split; reflexivity.
Qed.

(** X2. The batch counter of a session is the number of HTTP requests it has
    made: every pass of the loop makes exactly one request, and nothing else
    does. *)
Theorem one_request_per_batch :
  forall (fuel : nat) (e : env) (table0 : list db_row) (ct : Z)
         (o : outcome) (s : session),
    import_historical_data fuel e table0 ct = Some (Returns o s) ->
    count_requests (out s) = batch_count s.
Proof.
  intros fuel e table0 ct o s H.
  set (P := fun s : session => count_requests (out s) = batch_count s).
  destruct (import_returns_inv fuel e table0 ct o s H)
    as [ev [start [Eg [[_ [_ ->]] | [_ [x [s1 [line [Hw [-> Hline]]]]]]]]]];
    pose proof (get_latest_shape (select_outcome e) (local_offset e) table0 true) as [Hev _];
    rewrite Eg in Hev; simpl in Hev.
  - cbn [out batch_count]. rewrite count_requests_app, Hev. reflexivity.
  - assert (Hs1 : P s1).
    { apply (while_loop_rule P P e ct start) with (fuel := fuel) (x := x)
        (s := entry_session ev start table0 ct); [ | auto | exact Hw | ].
      - intros s0 Hs0 _. unfold P in Hs0.
        destruct (fetch_events_shape e s0) as [Hf _].
        destruct (loop_body_cases e ct start s0)
          as [[_ ->] | [[ex [_ [_ ->]]] | [db_data [_ [_ [_ [[_ ->] | [[_ ->] | [_ ->]]]]]]]]];
          unfold P; cbn [out batch_count];
          rewrite !count_requests_app, Hs0, Hf;
          rewrite ?report_no_request, ?checkpoint_no_request;
          simpl; lia.
      - unfold P, entry_session. cbn [out batch_count].
        rewrite count_requests_app, Hev. reflexivity. }
    cbn [out batch_count]. rewrite count_requests_app, Hs1.
    destruct Hline as [[ex [_ [_ ->]]] | [_ [_ ->]]]; simpl; lia.
Qed.

Lemma one_request_per_batch_witness :
  exists o s,
    import_historical_data 5 (healthy_env [0; 60000]) [candle_row (-60000)] 100000
      = Some (Returns o s) /\
    count_requests (out s) = batch_count s /\ batch_count s = 2%nat.
Proof.
  eexists. eexists. split; [ reflexivity | ].
  split; [ | reflexivity ].
  exact (one_request_per_batch 5 (healthy_env [0; 60000])
           [candle_row (-60000)] 100000 _ _ eq_refl).
Defined.

(** X3. A session never makes two requests without sleeping in between: every
    pass that goes on to another one sleeps after its request, and a pass that
    ends the loop makes no further request. *)
Theorem requests_are_throttled :
  forall (fuel : nat) (e : env) (table0 : list db_row) (ct : Z)
         (o : outcome) (s : session),
    import_historical_data fuel e table0 ct = Some (Returns o s) ->
    throttled (out s) = true.
Proof.
  intros fuel e table0 ct o s H.
  set (I := fun s : session => pace true (out s) = Some true).
  set (Q := fun s : session => exists b, pace true (out s) = Some b).
  assert (Hthr : forall l, (exists b, pace true l = Some b) -> throttled l = true).
  { intros l [b Hb]. unfold throttled. rewrite Hb. reflexivity. }
  apply Hthr.
  destruct (import_returns_inv fuel e table0 ct o s H)
    as [ev [start [Eg [[_ [_ ->]] | [_ [x [s1 [line [Hw [-> Hline]]]]]]]]]];
    pose proof (get_latest_shape (select_outcome e) (local_offset e) table0 true) as [_ Hev];
    rewrite Eg in Hev; simpl in Hev.
  - cbn [out]. rewrite pace_app, Hev. eexists. reflexivity.
  - assert (Hs1 : Q s1).
    { apply (while_loop_rule I Q e ct start) with (fuel := fuel) (x := x)
        (s := entry_session ev start table0 ct); [ | | exact Hw | ].
      - intros s0 Hs0 _. unfold I in Hs0.
        destruct (fetch_events_shape e s0) as [_ Hf].
        destruct (loop_body_cases e ct start s0)
          as [[_ ->] | [[ex [_ [_ ->]]] | [db_data [_ [_ [_ [[_ ->] | [[_ ->] | [_ ->]]]]]]]]];
          unfold I, Q; cbn [out]; rewrite pace_app, Hs0; cbv beta iota;
          rewrite ?pace_app, Hf; cbv beta iota.
        + eexists. reflexivity.
        + eexists. reflexivity.
        + eexists. reflexivity.
        + cbn [app pace]. apply report_shape.
        + cbn [app pace]. apply report_shape.
      - intros s0 Hs0 _. exists true. exact Hs0.
      - unfold I, entry_session. cbn [out]. rewrite pace_app, Hev. reflexivity. }
    destruct Hs1 as [b Hb]. cbn [out]. rewrite pace_app, Hb.
    destruct Hline as [[ex [_ [_ ->]]] | [_ [_ ->]]]; eexists; reflexivity.
Qed.

Lemma requests_are_throttled_witness :
  exists o s,
    import_historical_data 5 (healthy_env [0; 60000]) [candle_row (-60000)] 100000
      = Some (Returns o s) /\
    throttled (out s) = true /\
    throttled [CallGet (request 0 None); CallGet (request 1 None)] = false.
Proof.
  eexists. eexists. split; [ reflexivity | ].
  split; [ | reflexivity ].
  exact (requests_are_throttled 5 (healthy_env [0; 60000])
           [candle_row (-60000)] 100000 _ _ eq_refl).
Defined.

(** ** The estimate of the number of batches *)

(** X4. The number of batches announced at the start of a session is the
    number of whole minutes between cursor and target divided by the page
    limit and rounded up: the least number of pages of [limit] records that
    hold that many one-minute candles. *)
Theorem estimated_batches_is_ceiling :
  forall (start ct : Z),
    start < ct ->
    exists total_minutes estimated_batches,
      scope start ct = MsgScope total_minutes estimated_batches /\
      60000 * total_minutes <= ct - start < 60000 * (total_minutes + 1) /\
      limit * (estimated_batches - 1) < total_minutes <= limit * estimated_batches.
Proof.
  intros start ct Hlt. unfold scope, limit.
  eexists. eexists. split; [ reflexivity | ].
  rewrite Z.quot_div_nonneg by lia.
  set (tm := (ct - start) / 60000).
  pose proof (Z.div_mod (ct - start) 60000 ltac:(lia)) as Hd.
  pose proof (Z.mod_pos_bound (ct - start) 60000 ltac:(lia)) as Hm.
  fold tm in Hd.
  pose proof (Z.div_mod (tm + 1000 - 1) 1000 ltac:(lia)) as Hd'.
  pose proof (Z.mod_pos_bound (tm + 1000 - 1) 1000 ltac:(lia)) as Hm'.
  split; lia.
Qed.

Lemma estimated_batches_is_ceiling_witness :
  0 < 150000000 /\
  scope 0 150000000 = MsgScope 2500 3 /\
  exists total_minutes estimated_batches,
    scope 0 150000000 = MsgScope total_minutes estimated_batches /\
    60000 * total_minutes <= 150000000 - 0 < 60000 * (total_minutes + 1) /\
    limit * (estimated_batches - 1) < total_minutes <= limit * estimated_batches.
Proof.
  assert (H : 0 < 150000000) by lia.
  split; [ exact H | ]. split; [ reflexivity | ].
  exact (estimated_batches_is_ceiling 0 150000000 H).
Defined.

(** ** The progress shown during a session *)

Lemma progress_fraction (c s e : Z) :
  s < e ->
  (progress_percent c s e == inject_Z (c - s) / inject_Z (e - s) * 100)%Q.
Proof.
  intros H. unfold progress_percent.
  assert (E : (0 <? e - s) = true) by (apply Z.ltb_lt; lia).
  rewrite E. reflexivity.
Qed.

Lemma fraction_le_iff (a b t : Z) :
  0 < t ->
  (a <= b <-> (inject_Z a / inject_Z t * 100 <= inject_Z b / inject_Z t * 100)%Q).
Proof.
  intros Ht.
  destruct t as [ | p | p ]; try lia.
  unfold Qle, Qdiv, Qmult, Qinv, inject_Z. simpl.
  rewrite !Z.mul_1_r. split; intros H; nia.
Qed.

Lemma fraction_eq_iff (a t : Z) :
  0 < t -> (a = t <-> (inject_Z a / inject_Z t * 100 == 100)%Q).
Proof.
  intros Ht.
  destruct t as [ | p | p ]; try lia.
  unfold Qeq, Qdiv, Qmult, Qinv, inject_Z. simpl.
  rewrite !Z.mul_1_r. split; intros H; nia.
Qed.

(** X5. Over a positive time span the progress percentage grows with the
    cursor and only with it, and it is 100 exactly when the cursor is on the
    target. *)
Theorem progress_follows_cursor :
  forall (c c' s e : Z),
    s < e ->
    (c <= c' <-> (progress_percent c s e <= progress_percent c' s e)%Q) /\
    (c = e <-> (progress_percent c s e == 100)%Q).
Proof.
  intros c c' s e H.
  rewrite !(progress_fraction _ s e H). split.
  - rewrite <- (fraction_le_iff (c - s) (c' - s) (e - s)) by lia. lia.
  - rewrite <- (fraction_eq_iff (c - s) (e - s)) by lia. lia.
Qed.

Lemma progress_follows_cursor_witness :
  0 < 100 /\
  (25 <= 50 <-> (progress_percent 25 0 100 <= progress_percent 50 0 100)%Q) /\
  (100 = 100 <-> (progress_percent 100 0 100 == 100)%Q).
Proof.
  assert (H : 0 < 100) by lia.
  split; [ exact H | ].
  split.
  - exact (proj1 (progress_follows_cursor 25 50 0 100 H)).
  - exact (proj2 (progress_follows_cursor 100 50 0 100 H)).
Defined.

(** ** The progress bar *)

Lemma py_int_bounds (q : Q) (b : Z) :
  (0 <= q)%Q -> (q <= inject_Z b)%Q -> 0 <= py_int q <= b.
Proof.
  destruct q as [n d]. unfold Qle, py_int. simpl. intros H0 Hb.
  rewrite Z.mul_1_r in H0, Hb.
  rewrite Z.quot_div_nonneg by lia. split.
  - apply Z.div_pos; lia.
  - apply Z.div_le_upper_bound; lia.
Qed.

Lemma bar_fill_in_range (progress : Q) :
  (0 <= progress)%Q -> (progress <= 100)%Q ->
  (0 <= inject_Z bar_length * progress / 100)%Q /\
  (inject_Z bar_length * progress / 100 <= inject_Z bar_length)%Q.
Proof.
  intros H0 H100. split.
  - apply Qle_shift_div_l; [ reflexivity | ]. rewrite Qmult_0_l.
    apply Qmult_le_0_compat; [ discriminate | exact H0 ].
  - apply Qle_shift_div_r; [ reflexivity | ].
    rewrite !(Qmult_comm (inject_Z bar_length)).
    apply Qmult_le_compat_r; [ exact H100 | discriminate ].
Qed.

(** X6. The progress bar has as many cells as the filled length and the
    remaining length make when each is taken as zero if negative.  For a
    progress between 0 and 100 percent that is exactly 30 cells; beyond 100
    percent, once the filled length exceeds 30, the bar is as long as the
    filled length, and for a negative filled length it is longer than 30 by
    that amount. *)
Theorem bar_cells :
  forall (progress : Q),
    Z.of_nat (List.length (bar progress)) =
      Z.max 0 (filled_length progress)
      + Z.max 0 (bar_length - filled_length progress) /\
    ((0 <= progress)%Q -> (progress <= 100)%Q ->
     0 <= filled_length progress <= bar_length /\
     List.length (bar progress) = 30%nat) /\
    (bar_length < filled_length progress ->
     Z.of_nat (List.length (bar progress)) = filled_length progress) /\
    (filled_length progress < 0 ->
     Z.of_nat (List.length (bar progress)) = bar_length - filled_length progress).
Proof.
  intros progress.
  assert (Hlen : Z.of_nat (List.length (bar progress)) =
                 Z.max 0 (filled_length progress)
                 + Z.max 0 (bar_length - filled_length progress)).
  { unfold bar. rewrite length_app, !repeat_length. lia. }
  split; [ exact Hlen | ].
  unfold bar_length in *. split; [ | split ].
  - intros H0 H100.
    destruct (bar_fill_in_range progress H0 H100) as [Ha Hb].
    pose proof (py_int_bounds _ _ Ha Hb) as Hf.
    fold (filled_length progress) in Hf. unfold bar_length in Hf.
    split; [ exact Hf | lia ].
  - intros H. lia.
  - intros H. lia.
Qed.

Lemma bar_cells_witness :
  (0 <= 25)%Q /\ (25 <= 100)%Q /\
  filled_length 25 = 7 /\ List.length (bar 25) = 30%nat /\
  bar_length < filled_length 200 /\
  Z.of_nat (List.length (bar 200)) = filled_length 200 /\
  filled_length 200 = 60.
Proof.
  assert (H0 : (0 <= 25)%Q) by discriminate.
  assert (H1 : (25 <= 100)%Q) by discriminate.
  assert (H2 : bar_length < filled_length 200) by reflexivity.
  destruct (bar_cells 25) as [_ [Hin _]].
  destruct (bar_cells 200) as [_ [_ [Hover _]]].
  split; [ exact H0 | ]. split; [ exact H1 | ].
  split; [ reflexivity | ]. split; [ exact (proj2 (Hin H0 H1)) | ].
  split; [ exact H2 | ]. split; [ exact (Hover H2) | reflexivity ].
Defined.

(** ** The reports of a session *)

Lemma in_report (ev : event) (bc : nat) (c orig ct : Z) (total : nat) :
  In ev (report bc c orig ct total ++ [Sleep] ++ checkpoint bc c total) ->
  ev = MsgProgressReport c orig ct bc total \/
  ev = MsgQuickUpdate c bc total \/ ev = Sleep \/ ev = MsgCheckpoint c total.
Proof.
  unfold report, checkpoint.
  destruct ((bc <=? 5)%nat || (bc mod 20 =? 0)%nat);
    destruct (bc mod 5 =? 0)%nat; destruct (bc mod 100 =? 0)%nat; simpl;
    intros H; repeat (destruct H as [H | H]; [ subst ev; auto | ]);
    destruct H.
Qed.

Lemma progress_report_not_in_fetch (e : env) (s : session)
  (c s0 e0 : Z) (bc tot : nat) :
  ~ In (MsgProgressReport c s0 e0 bc tot) (fetch_events e s).
Proof.
  unfold fetch_events, fetch_klines.
  destruct (api e (S (batch_count s)) (request (start_time s) None)); simpl;
    intros H; repeat (destruct H as [H | H]; [ discriminate H | ]); exact H.
Qed.

Lemma event_eq_report (c' s0' e0' : Z) (bc' tot' : nat) (c orig ct : Z)
  (bc tot : nat) :
  (e0' = ct /\ s0' = orig /\ bc' = bc) \/
  MsgProgressReport c orig ct bc tot <> MsgProgressReport c' s0' e0' bc' tot'.
Proof.
  destruct (Z.eq_dec e0' ct) as [-> | He];
    [ | right; intros H; injection H; intros; subst; contradiction He; reflexivity ].
  destruct (Z.eq_dec s0' orig) as [-> | Hs];
    [ | right; intros H; injection H; intros; subst; contradiction Hs; reflexivity ].
  destruct (Nat.eq_dec bc' bc) as [-> | Hb];
    [ | right; intros H; injection H; intros; subst; contradiction Hb; reflexivity ].
  left. auto.
Qed.

(** X7. Every progress report of a session is computed against the cursor the
    session started from and the instant it started at, the first before the
    second: the time span is positive, so the percentage shown is the fraction
    of the span and never the fixed 100 of an empty span, and it is shown for
    the cursor and the counters as they are after the batch. *)
Theorem reports_use_the_session_span :
  forall (fuel : nat) (e : env) (table0 : list db_row) (ct : Z)
         (o : outcome) (s : session) (c s0 e0 : Z) (bc tot : nat),
    import_historical_data fuel e table0 ct = Some (Returns o s) ->
    In (MsgProgressReport c s0 e0 bc tot) (out s) ->
    e0 = ct /\ s0 < ct /\
    snd (get_latest_timestamp (select_outcome e) (local_offset e) table0) = Ok s0 /\
    (bc <= batch_count s)%nat /\
    (progress_percent c s0 e0 == inject_Z (c - s0) / inject_Z (ct - s0) * 100)%Q.
Proof.
  intros fuel e table0 ct o s c s0 e0 bc tot H Hin.
  destruct (import_returns_inv fuel e table0 ct o s H)
    as [ev [start [Eg [[_ [_ ->]] | [Hlt [x [s1 [line [Hw [-> Hline]]]]]]]]]].
  - exfalso. cbn [out] in Hin. apply in_snoc_other in Hin; [ | discriminate ].
    revert Hin. unfold get_latest_timestamp in Eg.
    destruct (select_outcome e); [ destruct (select_max_open_time table0) | | ];
      injection Eg as <- _; simpl; intros Hin;
      repeat (destruct Hin as [Hin | Hin]; [ discriminate Hin | ]); exact Hin.
  - set (P := fun s : session =>
                forall c bc tot s0 e0,
                  In (MsgProgressReport c s0 e0 bc tot) (out s) ->
                  e0 = ct /\ s0 = start /\ (bc <= batch_count s)%nat).
    assert (Hs1 : P s1).
    { apply (while_loop_rule P P e ct start) with (fuel := fuel) (x := x)
        (s := entry_session ev start table0 ct); [ | auto | exact Hw | ].
      - intros sa Ha _.
        assert (Hkeep : forall tail c bc tot s0 e0,
                   (forall ev', In ev' tail ->
                      ev' <> MsgProgressReport c s0 e0 bc tot \/
                      (e0 = ct /\ s0 = start /\ bc = S (batch_count sa))) ->
                   In (MsgProgressReport c s0 e0 bc tot)
                      (out sa ++ fetch_events e sa ++ tail) ->
                   e0 = ct /\ s0 = start /\ (bc <= S (batch_count sa))%nat).
        { intros tail c' bc' tot' s0' e0' Htail Hin'.
          apply in_app_or in Hin'. destruct Hin' as [Hin' | Hin'].
          - destruct (Ha _ _ _ _ _ Hin') as [? [? ?]]. repeat split; auto.
          - apply in_app_or in Hin'. destruct Hin' as [Hin' | Hin'].
            + destruct (progress_report_not_in_fetch _ _ _ _ _ _ _ Hin').
            + destruct (Htail _ Hin') as [Hne | [? [? ->]]];
                [ contradiction Hne; reflexivity | repeat split; auto ]. }
        destruct (loop_body_cases e ct start sa)
          as [[_ ->] | [[ex [_ [_ ->]]] | [db_data [_ [_ [_ [[_ ->] | [[_ ->] | [_ ->]]]]]]]]];
          unfold P; cbn [out batch_count]; intros c' bc' tot' s0' e0' Hin'.
        + apply (Hkeep [MsgNoMoreData] c' bc' tot' s0' e0'); [ | exact Hin' ].
          intros ev' [<- | []]. left. discriminate.
        + apply (Hkeep [] c' bc' tot' s0' e0'); [ intros ev' [] | ].
          rewrite app_nil_r. exact Hin'.
        + apply (Hkeep [] c' bc' tot' s0' e0'); [ intros ev' [] | exact Hin' ].
        + eapply Hkeep; [ | exact Hin' ].
          intros ev' [<- | Hev']; [ left; discriminate | ].
          apply in_report in Hev'.
          destruct Hev' as [-> | [-> | [-> | ->]]]; try (left; discriminate).
          destruct (event_eq_report c' s0' e0' bc' tot'
                      (OpenTime (last db_data (candle_row 0)) + 1) start ct
                      (S (batch_count sa))
                      (total_records sa + List.length db_data)%nat)
            as [Heq | Hne]; [ right; exact Heq | left; exact Hne ].
        + eapply Hkeep; [ | exact Hin' ].
          intros ev' [<- | [<- | Hev']]; try (left; discriminate).
          apply in_report in Hev'.
          destruct Hev' as [-> | [-> | [-> | ->]]]; try (left; discriminate).
          destruct (event_eq_report c' s0' e0' bc' tot'
                      (OpenTime (last db_data (candle_row 0)) + 1) start ct
                      (S (batch_count sa)) (total_records sa + 0)%nat)
            as [Heq | Hne]; [ right; exact Heq | left; exact Hne ].
      - unfold P, entry_session. cbn [out]. intros c' bc' tot' s0' e0' Hin'.
        exfalso. apply in_snoc_other in Hin'; [ | discriminate ].
        revert Hin'. unfold get_latest_timestamp in Eg.
        destruct (select_outcome e); [ destruct (select_max_open_time table0) | | ];
          injection Eg as <- _; simpl; intros Hin';
          repeat (destruct Hin' as [Hin' | Hin']; [ discriminate Hin' | ]);
          exact Hin'. }
    cbn [out batch_count] in *.
    assert (Hin1 : In (MsgProgressReport c s0 e0 bc tot) (out s1)).
    { apply in_app_or in Hin. destruct Hin as [Hin | [Hin | []]]; [ exact Hin | ].
      destruct Hline as [[ex [_ [_ ->]]] | [_ [_ ->]]]; discriminate Hin. }
    destruct (Hs1 _ _ _ _ _ Hin1) as [-> [-> Hbc]].
    split; [ reflexivity | ]. split; [ exact Hlt | ].
    split; [ rewrite Eg; reflexivity | ]. split; [ exact Hbc | ].
    apply progress_fraction. exact Hlt.
Qed.

Lemma reports_use_the_session_span_witness :
  exists o s,
    import_historical_data 5 (healthy_env [0; 60000]) [candle_row (-60000)] 100000
      = Some (Returns o s) /\
    In (MsgProgressReport 60001 0 100000 1 2) (out s) /\
    0 < 100000 /\
    (progress_percent 60001 0 100000
     == inject_Z (60001 - 0) / inject_Z (100000 - 0) * 100)%Q.
Proof.
  eexists. eexists. split; [ reflexivity | ].
  assert (Hin : In (MsgProgressReport 60001 0 100000 1 2)
                  (out (mk_session 60001 2 2
                          [candle_row (-60000); candle_row 0; candle_row 60000]
                          [MsgLatestInDb (-60000); MsgScope 1 1;
                           CallGet (request 0 None);
                           CallExecutemany [candle_row 0; candle_row 60000];
                           MsgProgressReport 60001 0 100000 1 2; Sleep;
                           CallGet (request 60001 None);
                           MsgNoMoreData; MsgImportDone 2 2]))).
  { simpl. tauto. }
  split; [ exact Hin | ].
  destruct (reports_use_the_session_span 5 (healthy_env [0; 60000])
              [candle_row (-60000)] 100000 _ _ _ _ _ _ _ eq_refl Hin)
    as [_ [Hlt [_ [_ Hp]]]].
  split; [ exact Hlt | exact Hp ].
Defined.

(** ** Sessions that end *)

Lemma page_of_delivered (e : env) (s : session) :
  page_of e s <> [] ->
  api e (S (batch_count s)) (request (start_time s) None) = HttpOk (page_of e s).
Proof.
  unfold page_of, fetch_klines.
  destruct (api e (S (batch_count s)) (request (start_time s) None)); simpl;
    [ reflexivity | intros H; contradiction H; reflexivity ].
Qed.

Lemma moving_feed_step (e : env) (ct orig : Z) (s s' : session) :
  feed_moves_on e ->
  loop_body e ct orig s = (Continue, s') ->
  start_time s < start_time s'.
Proof.
  intros Hmoves H.
  destruct (loop_body_cases e ct orig s)
    as [[_ Hb] | [[ex [_ [_ Hb]]] | [db_data [Hne [_ [Hc [[_ Hb] | [[_ Hb] | [_ Hb]]]]]]]]];
    rewrite Hb in H; try discriminate H;
    injection H as <-; cbn [start_time];
    pose proof (Hmoves _ _ _ _ (page_of_delivered e s Hne) Hne Hc); lia.
Qed.

Lemma moving_feed_terminates (e : env) (ct orig : Z) :
  feed_moves_on e ->
  forall fuel s,
    (Z.to_nat (ct - start_time s) <= fuel)%nat ->
    exists x s', while_loop fuel e ct orig s = Some (x, s').
Proof.
  intros Hmoves. induction fuel as [ | fuel IH]; intros s Hfuel.
  - exists CondFalse, s. apply while_loop_done. lia.
  - destruct (Z.lt_ge_cases (start_time s) ct) as [Hlt | Hge].
    + rewrite (while_loop_step fuel e ct orig s Hlt).
      destruct (loop_body e ct orig s) as [[ | | ex] s1] eqn:Eb; eauto.
      apply IH. pose proof (moving_feed_step e ct orig s s1 Hmoves Eb). lia.
    + exists CondFalse, s. apply while_loop_done. exact Hge.
Qed.

(** X10. When the last record of every delivered page opens at or after the
    requested start, the cursor grows with every pass, so the session ends
    whatever else happens (failed requests, malformed records, inserts that
    raise): as many passes as there are milliseconds between its starting
    cursor and the target are enough, and it counts no more batches than
    that. *)
Theorem session_ends_when_feed_moves_on :
  forall (e : env) (table0 : list db_row) (ct : Z) (ev : list event) (start : Z),
    feed_moves_on e ->
    get_latest_timestamp (select_outcome e) (local_offset e) table0 = (ev, Ok start) ->
    forall fuel,
      (Z.to_nat (ct - start) <= fuel)%nat ->
      exists o s,
        import_historical_data fuel e table0 ct = Some (Returns o s) /\
        Z.of_nat (batch_count s) <= Z.max 0 (ct - start).
Proof.
  intros e table0 ct ev start Hmoves Eg fuel Hfuel.
  rewrite (import_unfold fuel e table0 ct ev start Eg).
  destruct (ct <=? start) eqn:Ecmp.
  - eexists. eexists. split; [ reflexivity | ]. simpl. lia.
  - apply Z.leb_gt in Ecmp.
    destruct (moving_feed_terminates e ct start Hmoves fuel
                (entry_session ev start table0 ct)) as [x [s1 Hw]];
      [ simpl; lia | ].
    rewrite Hw.
    set (I := fun s : session =>
                start + Z.of_nat (batch_count s) <= start_time s /\
                Z.of_nat (batch_count s) <= ct - start).
    set (Q := fun s : session => Z.of_nat (batch_count s) <= ct - start).
    assert (Hs1 : Q s1).
    { apply (while_loop_rule I Q e ct start) with (fuel := fuel) (x := x)
        (s := entry_session ev start table0 ct); [ | | exact Hw | ].
      - intros s [Ha Hb] Hlt.
        destruct (loop_body_frame e ct start s) as [Hbc _].
        destruct (loop_body e ct start s) as [[ | | ex] s'] eqn:Eb;
          simpl in Hbc; unfold I, Q; rewrite Hbc.
        + pose proof (moving_feed_step e ct start s s' Hmoves Eb). lia.
        + lia.
        + lia.
      - intros s [_ Hb] _. exact Hb.
      - unfold I. simpl. lia. }
    unfold Q in Hs1.
    destruct x; eexists; eexists; (split; [ reflexivity | ]);
      cbn [batch_count]; lia.
Qed.

Lemma healthy_env_moves_on (ts : list Z) : feed_moves_on (healthy_env ts).
Proof.
  intros n c page db_data Hapi Hne Hconv.
  rewrite (healthy_env_serves ts n c) in Hapi. injection Hapi as <-.
  pose proof (map_result_ok_last _ _ _ [] (candle_row 0) Hconv Hne) as Hl.
  pose proof (last_in (pages_of ts c) [] Hne) as Hin.
  assert (Hin' : In (last (pages_of ts c) [])
                   (map candle (filter (fun t => c <=? t) ts)))
    by (apply (in_firstn (Z.to_nat limit)); exact Hin).
  apply in_map_iff in Hin'. destruct Hin' as [t [Ht Hin']].
  apply filter_In in Hin'. destruct Hin' as [_ Hc]. apply Z.leb_le in Hc.
  assert (Hl' : convert_kline_to_db_format (candle t)
                = Ok (last db_data (candle_row 0)))
    by (rewrite Ht; exact Hl).
  injection Hl' as Hl'. rewrite <- Hl'. exact Hc.
Qed.

Lemma session_ends_when_feed_moves_on_witness :
  let e := healthy_env [0; 60000] in
  feed_moves_on e /\
  get_latest_timestamp (select_outcome e) (local_offset e) [candle_row (-60000)]
    = ([MsgLatestInDb (-60000)], Ok 0) /\
  (Z.to_nat (100 - 0) <= 100)%nat /\
  exists o s,
    import_historical_data 100 e [candle_row (-60000)] 100 = Some (Returns o s) /\
    Z.of_nat (batch_count s) <= Z.max 0 (100 - 0).
Proof.
  intros e.
  assert (Hm : feed_moves_on e) by apply healthy_env_moves_on.
  assert (Hg : get_latest_timestamp (select_outcome e) (local_offset e) [candle_row (-60000)]
               = ([MsgLatestInDb (-60000)], Ok 0)) by reflexivity.
  assert (Hf : (Z.to_nat (100 - 0) <= 100)%nat) by (simpl; lia).
  split; [ exact Hm | ]. split; [ exact Hg | ]. split; [ exact Hf | ].
  exact (session_ends_when_feed_moves_on e [candle_row (-60000)] 100 _ 0
           Hm Hg 100%nat Hf).
Defined.

(** ** Open times of the key stay unique *)

Lemma ascending_lower_bound (c : Z) (l : list Z) :
  ascending_from c l -> forall t, In t l -> c <= t.
Proof.
  revert c. induction l as [ | a l IH]; simpl; intros c H t Ht; [ destruct Ht | ].
  destruct H as [Ha Hl]. destruct Ht as [<- | Ht]; [ exact Ha | ].
  specialize (IH _ Hl t Ht). lia.
Qed.

Lemma ascending_weaken (c c' : Z) (l : list Z) :
  c' <= c -> ascending_from c l -> ascending_from c' l.
Proof.
  destruct l as [ | a l]; simpl; [ auto | ].
  intros Hc [Ha Hl]. split; [ lia | exact Hl ].
Qed.

Lemma ascending_nodup (c : Z) (l : list Z) : ascending_from c l -> NoDup l.
Proof.
  revert c. induction l as [ | a l IH]; simpl; intros c H; [ constructor | ].
  destruct H as [_ Hl]. constructor; [ | exact (IH _ Hl) ].
  intros Hin. pose proof (ascending_lower_bound _ _ Hl a Hin). lia.
Qed.

Lemma ascending_last_greatest (c : Z) (l : list Z) (d : Z) :
  ascending_from c l -> forall t, In t l -> t <= last l d.
Proof.
  revert c. induction l as [ | a l IH]; intros c H t Ht; [ destruct Ht | ].
  destruct H as [_ Hl].
  destruct l as [ | b l].
  - destruct Ht as [<- | []]. simpl. lia.
  - change (last (a :: b :: l) d) with (last (b :: l) d).
    destruct Ht as [<- | Ht].
    + pose proof (IH _ Hl b (or_introl eq_refl)).
      destruct Hl as [Hb _]. lia.
    + exact (IH _ Hl t Ht).
Qed.

Lemma last_map_open_time (l : list db_row) (d : db_row) :
  last (map OpenTime l) (OpenTime d) = OpenTime (last l d).
Proof.
  induction l as [ | a l IH]; [ reflexivity | ].
  destruct l as [ | b l]; [ reflexivity | ].
  change (last (map OpenTime (b :: l)) (OpenTime d) = OpenTime (last (b :: l) d)).
  exact IH.
Qed.

Lemma key_open_times_app (t1 t2 : list db_row) :
  key_open_times (t1 ++ t2) = key_open_times t1 ++ key_open_times t2.
Proof.
  unfold key_open_times. rewrite filter_app, map_app. reflexivity.
Qed.

Lemma key_open_times_of_key_rows (l : list db_row) :
  Forall (fun r => key_match r = true) l -> key_open_times l = map OpenTime l.
Proof.
  unfold key_open_times. induction 1 as [ | r l Hr _ IH]; [ reflexivity | ].
  simpl. rewrite Hr. simpl. f_equal. exact IH.
Qed.

Lemma nodup_append {A : Type} (l1 l2 : list A) :
  NoDup l1 -> NoDup l2 -> (forall x, In x l1 -> In x l2 -> False) ->
  NoDup (l1 ++ l2).
Proof.
  induction l1 as [ | a l1 IH]; simpl; intros H1 H2 Hd; [ exact H2 | ].
  inversion H1 as [ | a' l' Hnotin Hnd ]; subst. constructor.
  - intros Hin. apply in_app_or in Hin. destruct Hin as [Hin | Hin].
    + exact (Hnotin Hin).
    + exact (Hd a (or_introl eq_refl) Hin).
  - apply IH; [ exact Hnd | exact H2 | ].
    intros x Hx1 Hx2. exact (Hd x (or_intror Hx1) Hx2).
Qed.

Lemma key_open_times_below_cursor (off : Z -> Z) (tbl : list db_row) (t : Z) :
  (forall t, off t <= 0) ->
  In t (key_open_times tbl) -> t < next_cursor off tbl.
Proof.
  unfold key_open_times. intros Hoff H. apply in_map_iff in H.
  destruct H as [r [<- Hr]]. apply filter_In in Hr. destruct Hr as [Hr Hk].
  pose proof (next_cursor_above off tbl r Hoff Hr Hk). lia.
Qed.

(** One pass keeps the open times of the key unique and below the cursor. *)
Lemma ascending_pass (e : env) (ct orig : Z) (s : session) :
  pages_ascending e ->
  NoDup (key_open_times (table s)) ->
  (forall t, In t (key_open_times (table s)) -> t < start_time s) ->
  let s' := snd (loop_body e ct orig s) in
  NoDup (key_open_times (table s')) /\
  (forall t, In t (key_open_times (table s')) -> t < start_time s') /\
  (fst (loop_body e ct orig s) = Continue ->
   forall d db_data,
     map_result convert_kline_to_db_format (page_of e s) = Ok db_data ->
     start_time s' = OpenTime (last db_data d) + 1 /\
     start_time s <= OpenTime (last db_data d) /\
     forall r, In r db_data -> OpenTime r <= OpenTime (last db_data d)).
Proof.
  intros Hasc Hnd Hbelow. simpl.
  destruct (loop_body_cases e ct orig s)
    as [[_ Hc] | [[ex [_ [_ Hc]]] | [db_data [Hne [Hd [Hconv Hcases]]]]]].
  - rewrite Hc. simpl. split; [ exact Hnd | split; [ exact Hbelow | discriminate ] ].
  - rewrite Hc. simpl. split; [ exact Hnd | split; [ exact Hbelow | discriminate ] ].
  - pose proof (Hasc _ _ _ _ (page_of_delivered e s Hne) Hconv) as Ha.
    pose proof (converted_rows_key _ _ Hconv) as Hkey.
    assert (Hlast : forall d,
               start_time s <= OpenTime (last db_data d) /\
               forall r, In r db_data -> OpenTime r <= OpenTime (last db_data d)).
    { intros d. rewrite <- last_map_open_time. split.
      - apply (ascending_lower_bound _ _ Ha).
        rewrite last_map_open_time. apply in_map.
        apply last_in. exact Hd.
      - intros r Hr.
        apply (ascending_last_greatest _ _ (OpenTime d) Ha). apply in_map. exact Hr. }
    assert (Hcont : forall d db_data',
               map_result convert_kline_to_db_format (page_of e s) = Ok db_data' ->
               OpenTime (last db_data (candle_row 0)) + 1
               = OpenTime (last db_data' d) + 1 /\
               start_time s <= OpenTime (last db_data' d) /\
               forall r, In r db_data' -> OpenTime r <= OpenTime (last db_data' d)).
    { intros d db_data' H'. rewrite Hconv in H'. injection H' as <-.
      rewrite (last_default_irrelevant db_data (candle_row 0) d Hd).
      split; [ reflexivity | apply Hlast ]. }
    destruct (Hlast (candle_row 0)) as [Hge Hmax].
    destruct Hcases as [[_ Hc] | [[_ Hc] | [_ Hc]]]; rewrite Hc;
      cbn [fst snd table start_time].
    + split; [ exact Hnd | split; [ exact Hbelow | discriminate ] ].
    + split; [ | split ].
      * rewrite key_open_times_app, (key_open_times_of_key_rows _ Hkey).
        apply nodup_append; [ exact Hnd | exact (ascending_nodup _ _ Ha) | ].
        intros t Ht1 Ht2. specialize (Hbelow t Ht1).
        pose proof (ascending_lower_bound _ _ Ha t Ht2). lia.
      * intros t Ht.
        rewrite key_open_times_app, (key_open_times_of_key_rows _ Hkey) in Ht.
        apply in_app_or in Ht. destruct Ht as [Ht | Ht].
        -- specialize (Hbelow t Ht). lia.
        -- apply in_map_iff in Ht. destruct Ht as [r [<- Hr]].
           specialize (Hmax r Hr). lia.
      * intros _. exact Hcont.
    + split; [ exact Hnd | ]. split.
      * intros t Ht. specialize (Hbelow t Ht). lia.
      * intros _. exact Hcont.
Qed.

(** X12. On a host whose local time is UTC or west of UTC, when the first
    query goes through and every delivered page is strictly increasing in open
    time from the requested start on, a session keeps the open times of the
    key ('BTC', '1m') free of duplicates: whatever it inserts opens after
    everything stored.  Failed requests, malformed records and inserts that
    raise do not endanger this. *)
Theorem open_times_stay_unique :
  forall (fuel : nat) (e : env) (table0 : list db_row) (ct : Z)
         (o : outcome) (s : session),
    host_not_east_of_utc e ->
    select_outcome e = DbOk ->
    pages_ascending e ->
    NoDup (key_open_times table0) ->
    import_historical_data fuel e table0 ct = Some (Returns o s) ->
    NoDup (key_open_times (table s)).
Proof.
  intros fuel e table0 ct o s Hwest Hsel Hasc Hnd H.
  destruct (import_returns_inv fuel e table0 ct o s H)
    as [ev [start [Eg [[_ [_ ->]] | [_ [x [s1 [line [Hw [-> _]]]]]]]]]];
    [ exact Hnd | ].
  destruct (get_latest_when_ok e table0 Hsel) as [ev' [Eg' _]].
  rewrite Eg in Eg'. injection Eg' as _ ->.
  cbn [table].
  set (I := fun s : session =>
              NoDup (key_open_times (table s)) /\
              forall t, In t (key_open_times (table s)) -> t < start_time s).
  assert (Hs1 : I s1).
  { set (c := next_cursor (local_offset e) table0) in *.
    apply (while_loop_rule I I e ct c) with (fuel := fuel)
      (x := x) (s := entry_session ev c table0 ct);
      [ | auto | exact Hw | ].
    - intros s [Ha Hb] _.
      destruct (ascending_pass e ct c s Hasc Ha Hb) as [Ha' [Hb' _]].
      destruct (loop_body e ct c s) as [[ | | ex] s']; split; assumption.
    - split; [ exact Hnd | ]. simpl. intros t.
      apply key_open_times_below_cursor. exact Hwest. }
  exact (proj1 Hs1).
Qed.

Lemma converted_candles (l : list Z) :
  map_result convert_kline_to_db_format (map candle l) = Ok (map candle_row l).
Proof.
  induction l as [ | t l IH]; [ reflexivity | ].
  cbn [map map_result]. rewrite IH. reflexivity.
Qed.

Lemma open_times_of_candle_rows (l : list Z) : map OpenTime (map candle_row l) = l.
Proof.
  induction l as [ | t l IH]; [ reflexivity | ]. simpl. f_equal. exact IH.
Qed.

Lemma ascending_filter (f : Z -> bool) (c : Z) (l : list Z) :
  ascending_from c l -> ascending_from c (filter f l).
Proof.
  revert c. induction l as [ | t l IH]; intros c H; [ exact I | ].
  destruct H as [Ht Hl]. simpl. destruct (f t).
  - split; [ exact Ht | apply IH; exact Hl ].
  - apply (ascending_weaken (t + 1)); [ lia | apply IH; exact Hl ].
Qed.

Lemma ascending_firstn (n : nat) (c : Z) (l : list Z) :
  ascending_from c l -> ascending_from c (firstn n l).
Proof.
  revert c l. induction n as [ | n IH]; intros c l H; [ exact I | ].
  destruct l as [ | t l]; [ exact I | ].
  destruct H as [Ht Hl]. simpl. split; [ exact Ht | apply IH; exact Hl ].
Qed.

Lemma ascending_raise (c c' : Z) (l : list Z) :
  ascending_from c l -> (forall t, In t l -> c' <= t) -> ascending_from c' l.
Proof.
  destruct l as [ | t l]; [ auto | ].
  intros [_ Hl] Hge. split; [ apply Hge; left; reflexivity | exact Hl ].
Qed.

Lemma healthy_env_ascending (c0 : Z) (ts : list Z) :
  ascending_from c0 ts -> pages_ascending (healthy_env ts).
Proof.
  intros Hts n c page db_data Hapi Hconv.
  rewrite (healthy_env_serves ts n c) in Hapi. injection Hapi as <-.
  unfold pages_of in Hconv. rewrite firstn_map in Hconv.
  remember (firstn (Z.to_nat limit) (filter (fun t => c <=? t) ts)) as l eqn:El.
  rewrite converted_candles in Hconv.
  injection Hconv as <-. rewrite open_times_of_candle_rows. subst l.
  apply ascending_firstn. apply (ascending_raise c0).
  - apply ascending_filter. exact Hts.
  - intros t Ht. apply filter_In in Ht. destruct Ht as [_ Ht].
    apply Z.leb_le. exact Ht.
Qed.

Lemma open_times_stay_unique_witness :
  let e := healthy_env [0; 60000; 120000] in
  let table0 := [candle_row (-120000); candle_row (-60000)] in
  host_not_east_of_utc e /\
  select_outcome e = DbOk /\ pages_ascending e /\
  NoDup (key_open_times table0) /\
  exists o s,
    import_historical_data 5 e table0 200000 = Some (Returns o s) /\
    key_open_times (table s) = [-120000; -60000; 0; 60000; 120000] /\
    NoDup (key_open_times (table s)).
Proof.
  intros e table0.
  assert (H0 : host_not_east_of_utc e) by (intros t; simpl; lia).
  assert (H1 : select_outcome e = DbOk) by reflexivity.
  assert (H2 : pages_ascending e).
  { apply (healthy_env_ascending 0). simpl. lia. }
  assert (H3 : NoDup (key_open_times table0)).
  { apply (ascending_nodup (-120000)). simpl. lia. }
  split; [ exact H0 | ].
  split; [ exact H1 | ]. split; [ exact H2 | ]. split; [ exact H3 | ].
  eexists. eexists. split; [ reflexivity | ]. split; [ reflexivity | ].
  exact (open_times_stay_unique 5 e table0 200000 _ _ H0 H1 H2 H3 eq_refl).
Defined.

(** ** The cursor of a restart *)

Lemma ascending_page_last (e : env) (s : session) (db_data : list db_row)
  (d : db_row) :
  pages_ascending e ->
  page_of e s <> [] ->
  map_result convert_kline_to_db_format (page_of e s) = Ok db_data ->
  start_time s <= OpenTime (last db_data d) /\
  forall r, In r db_data -> OpenTime r <= OpenTime (last db_data d).
Proof.
  intros Hasc Hne Hconv.
  pose proof (Hasc _ _ _ _ (page_of_delivered e s Hne) Hconv) as Ha.
  pose proof (converted_not_nil _ _ Hne Hconv) as Hd.
  rewrite <- last_map_open_time. split.
  - apply (ascending_lower_bound _ _ Ha).
    rewrite last_map_open_time. apply in_map. apply last_in. exact Hd.
  - intros r Hr.
    apply (ascending_last_greatest _ _ (OpenTime d) Ha). apply in_map. exact Hr.
Qed.

(** X13. After a pass that commits a page which is increasing in open time,
    into a table whose rows of the key all open before the cursor, the latest
    stored open time is that of the last record of the page, one millisecond
    before the cursor of the running session.  A restart whose query goes
    through would therefore begin 59999 milliseconds after the point at which
    the running session asks next, less the offset of its host's local time
    from UTC: exactly 59999 milliseconds later on a host whose local time is
    UTC. *)
Theorem restart_cursor_after_commit :
  forall (e : env) (ct orig : Z) (s s' : session),
    pages_ascending e ->
    insert_outcome e (S (batch_count s)) = DbOk ->
    (forall t, In t (key_open_times (table s)) -> t < start_time s) ->
    loop_body e ct orig s = (Continue, s') ->
    select_max_open_time (table s') = Some (start_time s' - 1) /\
    (forall off,
        snd (get_latest_timestamp DbOk off (table s'))
          = Ok (start_time s' + 59999 - off (start_time s' - 1))) /\
    (forall off,
        (forall t, off t = 0) ->
        snd (get_latest_timestamp DbOk off (table s'))
          = Ok (start_time s' + 59999)).
Proof.
  intros e ct orig s s' Hasc Hins Hbelow H.
  cut (select_max_open_time (table s') = Some (start_time s' - 1)).
  { intros Hsel.
    assert (Hgen : forall off,
               snd (get_latest_timestamp DbOk off (table s'))
                 = Ok (start_time s' + 59999 - off (start_time s' - 1))).
    { intros off. unfold get_latest_timestamp, timestamp_ms. rewrite Hsel.
      simpl. f_equal. lia. }
    split; [ exact Hsel | ]. split; [ exact Hgen | ].
    intros off Hoff. rewrite Hgen, Hoff. f_equal. lia. }
  destruct (loop_body_cases e ct orig s)
    as [[_ Hc] | [[ex [_ [_ Hc]]] | [db_data [Hne [Hd [Hconv [[Hi _] | [[_ Hc] | [Hi _]]]]]]]]];
    try (rewrite Hc in H; discriminate H);
    try (rewrite Hins in Hi; discriminate Hi).
  rewrite Hc in H. injection H as <-. cbn [table start_time].
  destruct (ascending_page_last e s db_data (candle_row 0) Hasc Hne Hconv)
    as [Hge Hmax].
  set (m := OpenTime (last db_data (candle_row 0))) in *.
  assert (Hm : stored_max (table s ++ db_data) m).
  { split.
    - exists (last db_data (candle_row 0)). split; [ | split ].
      + apply in_or_app. right. apply last_in. exact Hd.
      + pose proof (converted_rows_key _ _ Hconv) as Hkey.
        rewrite Forall_forall in Hkey. apply Hkey. apply last_in. exact Hd.
      + reflexivity.
    - intros r Hr Hk. apply in_app_or in Hr. destruct Hr as [Hr | Hr].
      + assert (Hin : In (OpenTime r) (key_open_times (table s))).
        { unfold key_open_times. apply in_map. apply filter_In. auto. }
        specialize (Hbelow _ Hin). lia.
      + apply Hmax. exact Hr. }
  assert (Hsel : select_max_open_time (table s ++ db_data) = Some m).
  { destruct (select_max_cases (table s ++ db_data)) as [[m' [E Hm']] | [_ Hno]].
    - rewrite E. f_equal. exact (stored_max_unique _ _ _ Hm' Hm).
    - destruct (stored_max_not_empty _ _ Hm Hno). }
  rewrite Hsel. f_equal. lia.
Qed.

Lemma restart_cursor_after_commit_witness :
  let e := healthy_env [0; 60000; 120000] in
  let s := mk_session 0 0 0 [candle_row (-60000)] [] in
  pages_ascending e /\ insert_outcome e (S (batch_count s)) = DbOk /\
  (forall t, In t (key_open_times (table s)) -> t < start_time s) /\
  exists s',
    loop_body e 500000 0 s = (Continue, s') /\
    start_time s' = 120001 /\
    select_max_open_time (table s') = Some (start_time s' - 1) /\
    snd (get_latest_timestamp DbOk (fun _ => 7200000) (table s'))
      = Ok (start_time s' + 59999 - 7200000).
Proof.
  intros e s.
  assert (H1 : pages_ascending e).
  { apply (healthy_env_ascending 0). simpl. lia. }
  assert (H2 : insert_outcome e (S (batch_count s)) = DbOk) by reflexivity.
  assert (H3 : forall t, In t (key_open_times (table s)) -> t < start_time s).
  { intros t [<- | []]. simpl. lia. }
  split; [ exact H1 | ]. split; [ exact H2 | ]. split; [ exact H3 | ].
  eexists. split; [ reflexivity | ]. split; [ reflexivity | ].
  destruct (restart_cursor_after_commit e 500000 0 s _ H1 H2 H3 eq_refl)
    as [Hsel [Hgen _]].
  split; [ exact Hsel | exact (Hgen (fun _ => 7200000)) ].
Defined.

(** ** A page whose insert was rolled back *)

(** Whatever the loop adds to the table from a state on carries the key and
    opens at or after the cursor of that state. *)
Lemma later_rows_open_later (e : env) (ct orig : Z) (fuel : nat)
  (s1 s2 : session) (x : loop_exit) :
  pages_ascending e ->
  while_loop fuel e ct orig s1 = Some (x, s2) ->
  exists added,
    table s2 = table s1 ++ added /\
    forall r, In r added -> start_time s1 <= OpenTime r /\ key_match r = true.
Proof.
  intros Hasc Hw.
  set (I := fun s : session =>
              start_time s1 <= start_time s /\
              exists added,
                table s = table s1 ++ added /\
                forall r, In r added ->
                          start_time s1 <= OpenTime r /\ key_match r = true).
  assert (H2 : I s2).
  { apply (while_loop_rule I I e ct orig) with (fuel := fuel) (x := x) (s := s1);
      [ | auto | exact Hw | ].
    - intros s [Hc [added [Ht Ha]]] _.
      destruct (loop_body_cases e ct orig s)
        as [[_ ->] | [[ex [_ [_ ->]]] | [db_data [Hne [_ [Hconv [[_ ->] | [[_ ->] | [_ ->]]]]]]]]];
        unfold I; cbn [table start_time];
        try (split; [ exact Hc | exists added; split; assumption ]);
        destruct (ascending_page_last e s db_data (candle_row 0) Hasc Hne Hconv)
          as [Hge Hmax].
      + split; [ lia | ].
        exists (added ++ db_data). rewrite Ht, app_assoc. split; [ reflexivity | ].
        intros r Hr. apply in_app_or in Hr. destruct Hr as [Hr | Hr];
          [ apply Ha; exact Hr | ].
        pose proof (Hasc _ _ _ _ (page_of_delivered e s Hne) Hconv) as Hp.
        pose proof (ascending_lower_bound _ _ Hp (OpenTime r) (in_map _ _ _ Hr)).
        pose proof (converted_rows_key _ _ Hconv) as Hkey.
        rewrite Forall_forall in Hkey.
        split; [ lia | apply Hkey; exact Hr ].
      + split; [ lia | ]. exists added. split; assumption.
    - split; [ lia | ]. exists []. split; [ symmetry; apply app_nil_r | ].
      intros r []. }
  exact (proj2 H2).
Qed.

(** X14. A page whose INSERT raised is not tried again.  With pages that are
    increasing in open time, everything the session adds to the table after
    such a pass opens later than every record of that page; and once it has
    added something, the cursor of a restart on a host whose local time is
    UTC or west of UTC lies more than a minute after every record of the
    page, so that such a restart does not ask for them either. *)
Theorem rolled_back_page_is_not_retried :
  forall (e : env) (ct orig : Z) (fuel : nat) (s s1 s2 : session)
         (x : loop_exit) (db_data : list db_row),
    pages_ascending e ->
    page_of e s <> [] ->
    map_result convert_kline_to_db_format (page_of e s) = Ok db_data ->
    insert_outcome e (S (batch_count s)) = DbRaises ->
    loop_body e ct orig s = (Continue, s1) ->
    while_loop fuel e ct orig s1 = Some (x, s2) ->
    table s1 = table s /\
    exists added,
      table s2 = table s ++ added /\
      (forall r r', In r db_data -> In r' added -> OpenTime r < OpenTime r') /\
      (added <> [] ->
       forall off,
         (forall t, off t <= 0) ->
         exists ev cursor,
           get_latest_timestamp DbOk off (table s2) = (ev, Ok cursor) /\
           forall r, In r db_data -> OpenTime r + 60000 < cursor).
Proof.
  intros e ct orig fuel s s1 s2 x db_data Hasc Hne Hconv Hins Hb Hw.
  pose proof (loop_body_rolled_back e ct orig s db_data (candle_row 0)
                Hne Hconv Hins) as Hb'.
  simpl in Hb'. rewrite Hb' in Hb. injection Hb as <-.
  destruct (ascending_page_last e s db_data (candle_row 0) Hasc Hne Hconv)
    as [_ Hmax].
  destruct (later_rows_open_later e ct orig fuel _ s2 x Hasc Hw)
    as [added [Ht Ha]].
  cbn [table start_time] in Ht, Ha.
  split; [ reflexivity | ].
  exists added. split; [ exact Ht | ].
  assert (Hlater : forall r r', In r db_data -> In r' added ->
                                OpenTime r < OpenTime r').
  { intros r r' Hr Hr'. specialize (Hmax r Hr).
    destruct (Ha r' Hr') as [Hge' _]. lia. }
  split; [ exact Hlater | ].
  intros Hadded off Hoff.
  exists (fst (get_latest_timestamp DbOk off (table s2))), (next_cursor off (table s2)).
  split.
  { unfold get_latest_timestamp, next_cursor.
    destruct (select_max_open_time (table s2)); reflexivity. }
  intros r Hr.
  destruct added as [ | r' added']; [ contradiction Hadded; reflexivity | ].
  assert (Hin' : In r' (r' :: added')) by (left; reflexivity).
  pose proof (Hlater r r' Hr Hin') as Hlt.
  assert (Hk : key_match r' = true) by (apply (Ha r' Hin')).
  assert (Hmem : In r' (table s2)).
  { rewrite Ht. apply in_or_app. right. exact Hin'. }
  pose proof (next_cursor_above off _ _ Hoff Hmem Hk). lia.
Qed.

Lemma small_page_env_ascending (size : nat) (ins : nat -> db_outcome)
  (c0 : Z) (ts : list Z) :
  ascending_from c0 ts -> pages_ascending (small_page_env size ins ts).
Proof.
  intros Hts n c page db_data Hapi Hconv.
  simpl in Hapi. injection Hapi as <-.
  rewrite firstn_map in Hconv.
  remember (firstn size (filter (fun t => c <=? t) ts)) as l eqn:El.
  rewrite converted_candles in Hconv.
  injection Hconv as <-. rewrite open_times_of_candle_rows. subst l.
  apply ascending_firstn. apply (ascending_raise c0).
  - apply ascending_filter. exact Hts.
  - intros t Ht. apply filter_In in Ht. destruct Ht as [_ Ht].
    apply Z.leb_le. exact Ht.
Qed.

Lemma rolled_back_page_is_not_retried_witness :
  let e := small_page_env 1 (fun n => if (n =? 1)%nat then DbRaises else DbOk)
             [0; 60000] in
  let s := mk_session 0 0 0 [] [] in
  pages_ascending e /\ page_of e s = [candle 0] /\
  insert_outcome e (S (batch_count s)) = DbRaises /\
  exists s1 s2 added,
    loop_body e 200000 0 s = (Continue, s1) /\
    while_loop 5 e 200000 0 s1 = Some (Broke, s2) /\
    table s2 = table s ++ added /\ added = [candle_row 60000] /\
    (forall r r', In r [candle_row 0] -> In r' added -> OpenTime r < OpenTime r') /\
    exists ev cursor,
      get_latest_timestamp DbOk (fun _ => 0) (table s2) = (ev, Ok cursor) /\
      forall r, In r [candle_row 0] -> OpenTime r + 60000 < cursor.
Proof.
  intros e s.
  assert (H1 : pages_ascending e).
  { apply (small_page_env_ascending _ _ 0). simpl. lia. }
  assert (H2 : page_of e s <> []) by discriminate.
  assert (H3 : insert_outcome e (S (batch_count s)) = DbRaises) by reflexivity.
  split; [ exact H1 | ]. split; [ reflexivity | ]. split; [ exact H3 | ].
  eexists. eexists.
  destruct (rolled_back_page_is_not_retried e 200000 0 5 s _ _ Broke
              [candle_row 0] H1 H2 eq_refl H3 eq_refl eq_refl)
    as [_ [added [Ht [Hlater Hrestart]]]].
  exists added.
  assert (Ha : added = [candle_row 60000]).
  { simpl in Ht. symmetry. exact Ht. }
  split; [ reflexivity | ]. split; [ reflexivity | ].
  split; [ exact Ht | ]. split; [ exact Ha | ]. split; [ exact Hlater | ].
  apply Hrestart; [ rewrite Ha; discriminate | intros t; lia ].
Defined.

(** * The restore from a backup file *)

Section CsvProperties.

Variable strptime : string -> option Z.
Variable to_float : string -> option Q.

Local Abbreviation convert := (convert_csv_row strptime to_float).
Local Abbreviation loop := (csv_rows strptime to_float).
Local Abbreviation valid := (valid_rows strptime to_float).

Lemma valid_rows_length (rows : list csv_row) :
  (List.length (valid rows) <= List.length rows)%nat.
Proof.
  induction rows as [ | row rows IH]; simpl; [ lia | ].
  destruct (convert row); simpl; lia.
Qed.

Lemma valid_rows_app (l1 l2 : list csv_row) :
  valid (l1 ++ l2) = valid l1 ++ valid l2.
Proof.
  induction l1 as [ | row l1 IH]; simpl; [ reflexivity | ].
  destruct (convert row); simpl; rewrite IH; reflexivity.
Qed.

(** What the loop has done when it stops, for whatever reason. *)
Lemma csv_rows_spec (db : csv_db) :
  forall rows st st' r,
    loop db rows st = (st', r) ->
    (List.length (pending st) < batch_size)%nat ->
    exists done rest_valid newb,
      valid rows = done ++ rest_valid /\
      committed st' ++ pending st' = committed st ++ pending st ++ done /\
      batches st' = batches st ++ newb /\
      committed st' = committed st ++ List.concat newb /\
      Forall (fun b => List.length b = batch_size) newb /\
      rows_imported st' = (rows_imported st + List.length (List.concat newb))%nat /\
      (r = None ->
       rest_valid = [] /\ (List.length (pending st') < batch_size)%nat /\
       skipped st' =
         (skipped st + (List.length rows - List.length (valid rows)))%nat) /\
      (only_value_errors strptime to_float rows ->
       (forall n, executemany_raises db n = false) -> r = None).
Proof.
  induction rows as [ | row rows IH]; intros st st' r H Hp.
  - simpl in H. injection H as <- <-.
    exists [], [], []. simpl. rewrite !app_nil_r.
    repeat split; auto; lia.
  - cbn [csv_rows] in H. cbn [valid_rows].
    destruct (convert row) as [t | ex] eqn:Ec.
    + destruct (batch_size <=? List.length (pending st ++ [t]))%nat eqn:Efull.
      * apply Nat.leb_le in Efull.
        assert (Hlen : List.length (pending st ++ [t]) = batch_size).
        { rewrite length_app in *. simpl in *. lia. }
        destruct (executemany_raises db (rows_imported st)) eqn:Eraise.
        -- injection H as <- <-.
           exists [t], (valid rows), []. simpl. rewrite !app_nil_r.
           repeat split; auto; try discriminate.
           intros _ Hdb. rewrite Hdb in Eraise. discriminate Eraise.
        -- apply IH in H; [ | simpl; unfold batch_size; lia ].
           destruct H as [done [rest_valid [newb [Hv [Hcp [Hb [Hc [Hf [Hr [Hnone Hok]]]]]]]]]].
           cbn [committed pending rows_imported skipped batches] in *.
           exists (t :: done), rest_valid, ((pending st ++ [t]) :: newb).
           split; [ rewrite Hv; reflexivity | ].
           split; [ rewrite Hcp; rewrite <- !app_assoc; reflexivity | ].
           split; [ rewrite Hb; rewrite <- app_assoc; reflexivity | ].
           split; [ rewrite Hc; simpl; rewrite <- !app_assoc; reflexivity | ].
           split; [ constructor; assumption | ].
           split; [ rewrite Hr; simpl; rewrite !length_app; simpl; lia | ].
           split.
           ++ intros Hn. destruct (Hnone Hn) as [-> [Hlt Hs]].
              split; [ reflexivity | ]. split; [ exact Hlt | ].
              rewrite Hs. pose proof (valid_rows_length rows). simpl. lia.
           ++ intros Hve Hdb. apply Hok; [ | exact Hdb ].
              intros row' ex' Hin. apply Hve. right. exact Hin.
      * apply Nat.leb_gt in Efull.
        apply IH in H; [ | exact Efull ].
        destruct H as [done [rest_valid [newb [Hv [Hcp [Hb [Hc [Hf [Hr [Hnone Hok]]]]]]]]]].
        cbn [committed pending rows_imported skipped batches] in *.
        exists (t :: done), rest_valid, newb.
        split; [ rewrite Hv; reflexivity | ].
        split; [ rewrite Hcp; rewrite <- !app_assoc; reflexivity | ].
        split; [ exact Hb | ]. split; [ exact Hc | ]. split; [ exact Hf | ].
        split; [ exact Hr | ]. split.
        -- intros Hn. destruct (Hnone Hn) as [-> [Hlt Hs]].
           split; [ reflexivity | ]. split; [ exact Hlt | ].
           rewrite Hs. pose proof (valid_rows_length rows). simpl. lia.
        -- intros Hve Hdb. apply Hok; [ | exact Hdb ].
           intros row' ex' Hin. apply Hve. right. exact Hin.
    + assert (Hskip :
                ex = ValueError ->
                loop db rows
                  (mk_csv_state (committed st) (pending st) (rows_imported st)
                     (S (skipped st)) (batches st)) = (st', r) ->
                exists done rest_valid newb,
                  valid rows = done ++ rest_valid /\
                  committed st' ++ pending st' = committed st ++ pending st ++ done /\
                  batches st' = batches st ++ newb /\
                  committed st' = committed st ++ List.concat newb /\
                  Forall (fun b => List.length b = batch_size) newb /\
                  rows_imported st' =
                    (rows_imported st + List.length (List.concat newb))%nat /\
                  (r = None ->
                   rest_valid = [] /\
                   (List.length (pending st') < batch_size)%nat /\
                   skipped st' =
                     (skipped st
                      + (S (List.length rows) - List.length (valid rows)))%nat) /\
                  (only_value_errors strptime to_float (row :: rows) ->
                   (forall n, executemany_raises db n = false) -> r = None)).
      { intros _ H'. apply IH in H'; [ | exact Hp ].
        destruct H' as [done [rest_valid [newb [Hv [Hcp [Hb [Hc [Hf [Hr [Hnone Hok]]]]]]]]]].
        cbn [committed pending rows_imported skipped batches] in *.
        exists done, rest_valid, newb.
        split; [ exact Hv | ]. split; [ exact Hcp | ]. split; [ exact Hb | ].
        split; [ exact Hc | ]. split; [ exact Hf | ]. split; [ exact Hr | ].
        split.
        - intros Hn. destruct (Hnone Hn) as [-> [Hlt Hs]].
          split; [ reflexivity | ]. split; [ exact Hlt | ].
          rewrite Hs. pose proof (valid_rows_length rows). lia.
        - intros Hve Hdb. apply Hok; [ | exact Hdb ].
          intros row' ex' Hin. apply Hve. right. exact Hin. }
      assert (Habort :
                ex <> ValueError -> (st', r) = (st, Some ex) ->
                exists done rest_valid newb,
                  valid rows = done ++ rest_valid /\
                  committed st' ++ pending st' = committed st ++ pending st ++ done /\
                  batches st' = batches st ++ newb /\
                  committed st' = committed st ++ List.concat newb /\
                  Forall (fun b => List.length b = batch_size) newb /\
                  rows_imported st' =
                    (rows_imported st + List.length (List.concat newb))%nat /\
                  (r = None ->
                   rest_valid = [] /\
                   (List.length (pending st') < batch_size)%nat /\
                   skipped st' =
                     (skipped st
                      + (S (List.length rows) - List.length (valid rows)))%nat) /\
                  (only_value_errors strptime to_float (row :: rows) ->
                   (forall n, executemany_raises db n = false) -> r = None)).
      { intros Hne H'. injection H' as -> ->.
        exists [], (valid rows), []. simpl. rewrite !app_nil_r.
        repeat split; auto; try discriminate.
        intros Hve _. exfalso. apply Hne.
        apply (Hve row ex); [ left; reflexivity | exact Ec ]. }
      destruct ex; first [ apply Hskip; [ reflexivity | exact H ]
                         | apply Habort; [ discriminate | symmetry; exact H ] ].
Qed.

Lemma csv_rows_app (db : csv_db) (l1 l2 : list csv_row) :
  forall st,
    loop db (l1 ++ l2) st =
      match loop db l1 st with
      | (st1, None) => loop db l2 st1
      | (st1, Some ex) => (st1, Some ex)
      end.
Proof.
  induction l1 as [ | row l1 IH]; intros st.
  - simpl. destruct (loop db l2 st) as [st1 [ex | ]]; reflexivity.
  - cbn [app csv_rows]. destruct (convert row) as [t | ex].
    + destruct (batch_size <=? List.length (pending st ++ [t]))%nat.
      * destruct (executemany_raises db (rows_imported st));
          [ reflexivity | apply IH ].
      * apply IH.
    + destruct ex; try reflexivity. apply IH.
Qed.

Lemma concat_length_uniform {A : Type} (n : nat) (l : list (list A)) :
  Forall (fun b => List.length b = n) l ->
  List.length (List.concat l) = (n * List.length l)%nat.
Proof.
  induction 1 as [ | b l Hb _ IH]; simpl; [ lia | ].
  rewrite length_app, Hb, IH. lia.
Qed.

Lemma forall_removelast {A : Type} (P : A -> Prop) (l : list A) :
  Forall P l -> Forall P (removelast l).
Proof.
  induction 1 as [ | a l Ha Hl IH]; simpl; [ constructor | ].
  destruct l; [ constructor | constructor; assumption ].
Qed.

(** X15. When no row of the file raises anything but [ValueError] and the
    database accepts every statement, the restore succeeds: the table is the
    table it found followed by the rows that translate, in the order of the
    file; the count it reports is the number of those rows, and every other
    row was skipped with a warning. *)
Theorem restore_inserts_the_valid_rows :
  forall (db : csv_db) (table0 : list backup_row) (rows : list csv_row),
    only_value_errors strptime to_float rows ->
    (forall n, executemany_raises db n = false) ->
    count_raises db = false ->
    exists st,
      import_rows strptime to_float db table0 rows = (true, st) /\
      committed st = table0 ++ valid rows /\
      pending st = [] /\
      rows_imported st = List.length (valid rows) /\
      skipped st = (List.length rows - List.length (valid rows))%nat.
Proof.
  intros db table0 rows Hve Hdb Hcount. unfold import_rows.
  destruct (loop db rows (mk_csv_state table0 [] 0 0 [])) as [st r] eqn:El.
  destruct (csv_rows_spec db rows _ st r El)
    as [done [rest_valid [newb [Hv [Hcp [Hb [Hc [Hf [Hr [Hnone Hok]]]]]]]]]];
    [ simpl; unfold batch_size; lia | ].
  cbn [committed pending rows_imported skipped batches] in *.
  rewrite (Hok Hve Hdb) in *.
  destruct (Hnone eq_refl) as [-> [Hlt Hs]]. rewrite app_nil_r in Hv. subst done.
  simpl in Hcp, Hs, Hr.
  assert (Hsplit : List.concat newb ++ pending st = valid rows).
  { rewrite Hc in Hcp. rewrite <- app_assoc in Hcp.
    apply app_inv_head in Hcp. exact Hcp. }
  assert (Hlen : (rows_imported st + List.length (pending st))%nat
                 = List.length (valid rows)).
  { rewrite Hr, <- Hsplit, length_app. reflexivity. }
  rewrite Hcount. simpl negb.
  destruct (pending st) as [ | t l] eqn:Ep.
  - exists st. rewrite app_nil_r in Hcp. simpl in Hlen.
    rewrite Nat.add_0_r in Hlen.
    split; [ reflexivity | ]. split; [ exact Hcp | ].
    split; [ exact Ep | ]. split; [ exact Hlen | exact Hs ].
  - rewrite Hdb. eexists. split; [ reflexivity | ].
    cbn [committed pending rows_imported skipped].
    split; [ exact Hcp | ]. split; [ reflexivity | ].
    split; [ exact Hlen | exact Hs ].
Qed.

(** X16. Whatever the file and whatever the database does, the rows that the
    restore leaves in the table are the table it found followed by the batches
    it committed; the count it keeps is the number of those rows; and every
    batch holds exactly 1000 rows, except that the last one, flushed after the
    last row of the file, may hold fewer, but at least one. *)
Theorem restore_commits_whole_batches :
  forall (db : csv_db) (table0 : list backup_row) (rows : list csv_row)
         (flag : bool) (st : csv_state),
    import_rows strptime to_float db table0 rows = (flag, st) ->
    committed st = table0 ++ List.concat (batches st) /\
    rows_imported st = List.length (List.concat (batches st)) /\
    Forall (fun b => (1 <= List.length b <= batch_size)%nat) (batches st) /\
    Forall (fun b => List.length b = batch_size) (removelast (batches st)).
Proof.
  intros db table0 rows flag st H. unfold import_rows in H.
  destruct (loop db rows (mk_csv_state table0 [] 0 0 [])) as [st1 r] eqn:El.
  destruct (csv_rows_spec db rows _ st1 r El)
    as [done [rest_valid [newb [_ [_ [Hb [Hc [Hf [Hr [Hnone _]]]]]]]]]];
    [ simpl; unfold batch_size; lia | ].
  cbn [committed pending rows_imported skipped batches] in *.
  simpl in Hb.
  assert (Hwhole : Forall (fun b => (1 <= List.length b <= batch_size)%nat) newb).
  { eapply Forall_impl; [ | exact Hf ]. simpl. intros b ->. unfold batch_size. lia. }
  assert (Hstay : committed st1 = table0 ++ List.concat (batches st1) /\
                  rows_imported st1 = List.length (List.concat (batches st1)) /\
                  Forall (fun b => (1 <= List.length b <= batch_size)%nat)
                    (batches st1) /\
                  Forall (fun b => List.length b = batch_size)
                    (removelast (batches st1))).
  { rewrite Hb. split; [ exact Hc | ]. split; [ exact Hr | ].
    split; [ exact Hwhole | apply forall_removelast; exact Hf ]. }
  destruct r as [ex | ]; [ injection H as _ <-; exact Hstay | ].
  destruct (Hnone eq_refl) as [_ [Hlt _]].
  destruct (pending st1) as [ | t l] eqn:Ep; [ injection H as _ <-; exact Hstay | ].
  destruct (executemany_raises db (rows_imported st1));
    [ injection H as _ <-; exact Hstay | ].
  injection H as _ <-. cbn [committed pending rows_imported skipped batches].
  rewrite Hb, concat_app. simpl List.concat. rewrite app_nil_r.
  split; [ rewrite Hc, app_assoc; reflexivity | ].
  split; [ rewrite Hr, !length_app; reflexivity | ].
  split.
  - apply Forall_app. split; [ exact Hwhole | ].
    constructor; [ | constructor ]. simpl in *. lia.
  - rewrite removelast_last. exact Hf.
Qed.

(** X17. A row that raises something other than [ValueError] (a line too
    short for the header, whose missing fields are [None]) ends the restore
    with a failure, but not without effect: the whole batches of 1000 valid
    rows that precede it in the file have been committed and stay in the
    table; only the rows of the batch under way are lost. *)
Theorem restore_fails_after_partial_commit :
  forall (db : csv_db) (table0 : list backup_row) (pre post : list csv_row)
         (bad : csv_row) (ex : exn),
    only_value_errors strptime to_float pre ->
    (forall n, executemany_raises db n = false) ->
    convert bad = Raise ex ->
    ex <> ValueError ->
    exists st,
      import_rows strptime to_float db table0 (pre ++ bad :: post) = (false, st) /\
      committed st =
        table0 ++ firstn (batch_size * (List.length (valid pre) / batch_size))
                    (valid pre).
Proof.
  intros db table0 pre post bad ex Hve Hdb Hbad Hex. unfold import_rows.
  rewrite csv_rows_app.
  destruct (loop db pre (mk_csv_state table0 [] 0 0 [])) as [st r] eqn:El.
  destruct (csv_rows_spec db pre _ st r El)
    as [done [rest_valid [newb [Hv [Hcp [_ [Hc [Hf [_ [Hnone Hok]]]]]]]]]];
    [ simpl; unfold batch_size; lia | ].
  cbn [committed pending] in *.
  rewrite (Hok Hve Hdb) in *.
  destruct (Hnone eq_refl) as [-> [Hlt _]]. rewrite app_nil_r in Hv. subst done.
  simpl in Hcp.
  cbn [csv_rows]. rewrite Hbad.
  assert (Hstop : (match ex with
                   | ValueError =>
                       loop db post
                         (mk_csv_state (committed st) (pending st)
                            (rows_imported st) (S (skipped st)) (batches st))
                   | _ => (st, Some ex)
                   end) = (st, Some ex)).
  { destruct ex; try reflexivity. contradiction Hex. reflexivity. }
  rewrite Hstop. exists st. split; [ reflexivity | ].
  rewrite Hc in Hcp. rewrite <- app_assoc in Hcp. apply app_inv_head in Hcp.
  rewrite Hc. f_equal.
  pose proof (concat_length_uniform batch_size newb Hf) as Hn.
  assert (Hdiv : (List.length (valid pre) / batch_size)%nat = List.length newb).
  { rewrite <- Hcp, length_app, Hn.
    symmetry. apply (Nat.div_unique _ _ _ (List.length (pending st)));
      [ exact Hlt | lia ]. }
  rewrite Hdiv, <- Hn, <- Hcp.
  rewrite firstn_app, Nat.sub_diag, firstn_all. simpl. rewrite app_nil_r.
  reflexivity.
Qed.

End CsvProperties.

Lemma restore_inserts_the_valid_rows_witness :
  let rows := [toy_row; toy_bad_price_row; toy_row] in
  only_value_errors toy_strptime toy_float rows /\
  (forall n, executemany_raises good_db n = false) /\
  count_raises good_db = false /\
  valid_rows toy_strptime toy_float rows = [toy_backup_row; toy_backup_row] /\
  exists st,
    import_rows toy_strptime toy_float good_db [] rows = (true, st) /\
    committed st = [] ++ valid_rows toy_strptime toy_float rows /\
    skipped st = 1%nat.
Proof.
  intros rows.
  assert (H1 : only_value_errors toy_strptime toy_float rows).
  { intros row ex [<- | [<- | [<- | []]]] H; vm_compute in H;
      try discriminate H. injection H as <-. reflexivity. }
  assert (H2 : forall n, executemany_raises good_db n = false)
    by (intros n; reflexivity).
  assert (H3 : count_raises good_db = false) by reflexivity.
  split; [ exact H1 | ]. split; [ exact H2 | ]. split; [ exact H3 | ].
  split; [ reflexivity | ].
  destruct (restore_inserts_the_valid_rows toy_strptime toy_float good_db []
              rows H1 H2 H3) as [st [Hrun [Hc [_ [_ Hs]]]]].
  exists st. split; [ exact Hrun | ]. split; [ exact Hc | exact Hs ].
Defined.

Lemma restore_commits_whole_batches_witness :
  exists st,
    import_rows toy_strptime toy_float good_db [] [toy_row; toy_row] = (true, st) /\
    batches st = [[toy_backup_row; toy_backup_row]] /\
    committed st = [] ++ List.concat (batches st) /\
    Forall (fun b => (1 <= List.length b <= batch_size)%nat) (batches st).
Proof.
  eexists. split; [ reflexivity | ]. split; [ reflexivity | ].
  destruct (restore_commits_whole_batches toy_strptime toy_float good_db []
              [toy_row; toy_row] _ _ eq_refl) as [Hc [_ [Hf _]]].
  split; [ exact Hc | exact Hf ].
Defined.

Lemma restore_fails_after_partial_commit_witness :
  let pre := repeat toy_row 1001 in
  only_value_errors toy_strptime toy_float pre /\
  (forall n, executemany_raises good_db n = false) /\
  convert_csv_row toy_strptime toy_float toy_short_row = Raise TypeError /\
  TypeError <> ValueError /\
  List.length (valid_rows toy_strptime toy_float pre) = 1001%nat /\
  exists st,
    import_rows toy_strptime toy_float good_db [] (pre ++ toy_short_row :: [toy_row])
      = (false, st) /\
    committed st =
      [] ++ firstn (batch_size
                    * (List.length (valid_rows toy_strptime toy_float pre)
                       / batch_size))
              (valid_rows toy_strptime toy_float pre).
Proof.
  intros pre.
  assert (H1 : only_value_errors toy_strptime toy_float pre).
  { intros row ex Hin H. apply repeat_spec in Hin. subst row.
    vm_compute in H. discriminate H. }
  assert (H2 : forall n, executemany_raises good_db n = false)
    by (intros n; reflexivity).
  assert (H3 : convert_csv_row toy_strptime toy_float toy_short_row
               = Raise TypeError) by reflexivity.
  assert (H4 : TypeError <> ValueError) by discriminate.
  split; [ exact H1 | ]. split; [ exact H2 | ]. split; [ exact H3 | ].
  split; [ exact H4 | ]. split; [ vm_compute; reflexivity | ].
  exact (restore_fails_after_partial_commit toy_strptime toy_float good_db []
           pre [toy_row] toy_short_row TypeError H1 H2 H3 H4).
Defined.
